(** * TransHonse [extract.py]: identifier codec, bundle decryption and the
    extraction pipeline, embedded shallowly and checked against the
    natural-language specification.

    Conventions of the embedding.
    - A Python [bytes]/[bytearray] is a [list Z] (every element a byte value);
      [^] on bytes is [Z.lxor].
    - A Python [str] is the list of its code points ([list N]); literals are
      written with [lit].
    - A call that may raise returns [exc A]; the exception kind is kept so the
      model reads like the source, although every handler in the program is a
      blanket [except Exception]. *)

From Stdlib Require Import ZArith NArith Lia String Ascii.
From stdpp Require Import base tactics option list gmap.

Local Open Scope Z_scope.
Local Open Scope nat_scope.

(** ** Exceptions *)

Inductive exn :=
  | OverflowError | ValueError | KeyError | TypeError
  | AttributeError | OSError | ParserError.

Inductive exc (A : Type) :=
  | Ok (a : A)
  | Raise (e : exn).
Arguments Ok {A} a.
Arguments Raise {A} e.

#[global] Instance exc_ret : MRet exc := fun A a => Ok a.
#[global] Instance exc_bind : MBind exc := fun A B f m =>
  match m with Ok a => f a | Raise e => Raise e end.
#[global] Instance exc_fmap : FMap exc := fun A B f m =>
  match m with Ok a => Ok (f a) | Raise e => Raise e end.

(** [try: m except Exception: d] *)
Definition try_except {A} (m : exc A) (d : A) : A :=
  match m with Ok a => a | Raise _ => d end.

(** ** Bytes *)

Abbreviation bytes := (list Z).

Definition is_byte (b : Z) : Prop := (0 <= b < 256)%Z.

(** [enumerate(l)], starting the count at [n]. *)
Fixpoint enumerate_from {A} (n : nat) (l : list A) : list (nat * A) :=
  match l with
  | [] => []
  | x :: l' => (n, x) :: enumerate_from (S n) l'
  end.

Definition enumerate {A} (l : list A) : list (nat * A) := enumerate_from 0 l.

(** [int.to_bytes(8, byteorder="little", signed=True)]: the value is reduced
    modulo 2^64 (two's complement) and cut into eight bytes, least
    significant first; a value outside the signed 64-bit range raises
    OverflowError. *)
Definition int64_min : Z := (- 2 ^ 63)%Z.
Definition int64_max : Z := (2 ^ 63 - 1)%Z.

Definition in_int64 (k : Z) : bool :=
  ((int64_min <=? k) && (k <=? int64_max))%Z.

Definition le_byte (k : Z) (j : nat) : Z :=
  (((k mod 2 ^ 64) / 2 ^ (8 * Z.of_nat j)) mod 256)%Z.

Definition to_bytes8 (k : Z) : exc bytes :=
  if in_int64 k then Ok (map (le_byte k) (seq 0 8)) else Raise OverflowError.

(** [int.from_bytes(bs, "little")], used to state what [to_bytes8] encodes. *)
Fixpoint from_bytes_le (bs : bytes) : Z :=
  match bs with
  | [] => 0%Z
  | b :: bs' => (b + 256 * from_bytes_le bs')%Z
  end.

(** [bytes.fromhex] on a string of hexadecimal digit pairs. *)
Definition hex_digit (c : ascii) : option Z :=
  let n := Z.of_nat (nat_of_ascii c) in
  if ((48 <=? n) && (n <=? 57))%Z then Some (n - 48)%Z
  else if ((97 <=? n) && (n <=? 102))%Z then Some (n - 87)%Z
  else if ((65 <=? n) && (n <=? 70))%Z then Some (n - 55)%Z
  else None.

Fixpoint fromhex (s : string) : exc bytes :=
  match s with
  | EmptyString => Ok []
  | String hi (String lo rest) =>
      match hex_digit hi, hex_digit lo with
      | Some h, Some l => cons (16 * h + l)%Z <$> fromhex rest
      | _, _ => Raise ValueError
      end
  | String _ EmptyString => Raise ValueError
  end.

(** ** Key material *)

Definition BUNDLE_BASE_KEY : string := "532b4631e4a7b9473e7cfb".

(** ** GameBundle: key derivation and stream decryption *)

(** Lines 386-393 of [_create_final_key], for a given base key: a zeroed
    [bytearray(base_len * 8)] filled by the two nested [enumerate] loops;
    [i << 3] is the row offset. *)
Definition store_row (b : Z) (baseOffset : nat) (final_key : bytes)
    (jk : nat * Z) : bytes :=
  <[baseOffset + jk.1 := Z.lxor b jk.2]> final_key.

Definition store_rows (bundle_key : bytes) (final_key : bytes)
    (ib : nat * Z) : bytes :=
  let baseOffset := Nat.shiftl ib.1 3 in
  foldl (store_row ib.2 baseOffset) final_key (enumerate bundle_key).

Definition final_key_of (base_key : bytes) (bundle_key : Z) : exc bytes :=
  bk ← to_bytes8 bundle_key;
  let base_len := length base_key in
  Ok (foldl (store_rows bk) (replicate (base_len * 8) 0%Z) (enumerate base_key)).

Definition _create_final_key (bundle_key : Z) : exc bytes :=
  base_key ← fromhex BUNDLE_BASE_KEY;
  final_key_of base_key bundle_key.

(** One turn of the loop of [_decrypt]:
    [decrypted_data[i] ^= final_key[i % len(final_key)]]. *)
Definition xor_at (final_key : bytes) (decrypted_data : bytes) (i : nat) : bytes :=
  match decrypted_data !! i, final_key !! (i mod length final_key) with
  | Some x, Some k => <[i := Z.lxor x k]> decrypted_data
  | _, _ => decrypted_data
  end.

Definition _decrypt (bundle_key : Z) (data : bytes) : exc bytes :=
  final_key ← _create_final_key bundle_key;
  Ok (foldl (xor_at final_key) data (seq 256 (length data - 256))).

(** The bytes [load] hands to the object-graph parser (lines 335-341): the
    file as it is for a zero key, otherwise the file with everything past
    the 256-byte header decrypted. *)
Definition decode (raw : bytes) (bundle_key : Z) : exc bytes :=
  if (bundle_key =? 0)%Z then Ok raw
  else if 256 <? length raw then _decrypt bundle_key raw
  else Ok raw.


(** ** Strings *)

Abbreviation str := (list N).

Definition lit (s : string) : str :=
  (fun c => N_of_ascii c) <$> list_ascii_of_string s.

(** [s[a:b]] for literal bounds [0 <= a <= b]; [s[:b]] is [take b s] and
    [s[a:]] is [drop a s]. Python clamps a slice to the string, as [take]
    and [drop] do. *)
Definition slice {A} (a b : nat) (s : list A) : list A := take (b - a) (drop a s).

(** [s[-n:]]: truncated subtraction gives the clamped start. *)
Definition suffix {A} (n : nat) (s : list A) : list A := drop (length s - n) s.

(** Truth value of an attribute that is [None] or a string. *)
Definition truthy_str (o : option str) : bool :=
  match o with Some (_ :: _) => true | _ => false end.

(** [f"{x}"] for an attribute that is [None] or a string. *)
Definition fmt (o : option str) : str := default (lit "None") o.

(** ** Asset types *)

(** [TARGET_TYPES], the values the command line admits for [--type]. *)
Inductive text_type := story | home | lyrics | preview.

#[global] Instance text_type_eq_dec : EqDecision text_type.
Proof. solve_decision. Defined.

Definition type_name (t : text_type) : str :=
  match t with
  | story => lit "story" | home => lit "home"
  | lyrics => lit "lyrics" | preview => lit "preview"
  end.

(** [type in ("lyrics", "preview")] *)
Definition lyrics_or_preview (t : text_type) : bool :=
  match t with lyrics | preview => true | _ => false end.

(** ** StoryId *)

Module StoryId.

Record t := mk {
  type : text_type;
  set : option str;
  group : option str;
  id : option str;
  idx : option str
}.

#[global] Instance eq_dec : EqDecision t.
Proof. solve_decision. Defined.

(** [__init__] *)
Definition init (type : text_type) (set group id idx : option str) : t :=
  if lyrics_or_preview type then
    let id := if negb (truthy_str id) && truthy_str idx then idx else id in
    mk type None None id None
  else mk type set group id idx.

(** [__str__] *)
Definition to_str (s : t) : str :=
  concat (omap (fun x => x) [set s; group s; id s; idx s]).

Definition parse (text_type : text_type) (s : str) : t :=
  if lyrics_or_preview text_type then init text_type None None (Some s) None
  else if (9 <? length s) && bool_decide (text_type = home) then
    init text_type (Some (take 5 s)) (Some (slice 5 7 s))
         (Some (slice 7 11 s)) (Some (drop 11 s))
  else
    init text_type None (Some (take 2 s)) (Some (slice 2 6 s)) (Some (drop 6 s)).

Definition parseFromPath (text_type : text_type) (path : str) : t :=
  match text_type with
  | home =>
      let path := suffix 16 path in
      init text_type (Some (take 5 path)) (Some (slice 6 8 path))
           (Some (slice 9 13 path)) (Some (drop 13 path))
  | lyrics =>
      init text_type None None
           (Some (slice (length path - 11) (length path - 7) path)) None
  | preview => init text_type None None (Some (suffix 4 path)) None
  | _ =>
      let path := suffix 9 path in
      init text_type None (Some (take 2 path)) (Some (slice 2 6 path))
           (Some (slice 6 9 path))
  end.

Definition queryfy (storyId : t) : t :=
  let s := init (type storyId) (set storyId) (group storyId) (id storyId) (idx storyId) in
  let s := if bool_decide (set s = None) && bool_decide (type s = home)
           then mk (type s) (Some (lit "_____")) (group s) (id s) (idx s) else s in
  let s := if bool_decide (group s = None) && negb (bool_decide (type s = lyrics))
           then mk (type s) (set s) (Some (lit "__")) (id s) (idx s) else s in
  let s := if bool_decide (id s = None)
           then mk (type s) (set s) (group s) (Some (lit "____")) (idx s) else s in
  let s := if bool_decide (idx s = None) && negb (lyrics_or_preview (type s))
           then mk (type s) (set s) (group s) (id s) (Some (lit "___")) else s in
  s.

(** [asPath]: the directory segments under the type's output directory. *)
Definition asPath (s : t) : list str :=
  omap (fun x => x) [set s; group s; id s].

Definition getFilenameIdx (s : t) : exc (option str) :=
  if lyrics_or_preview (type s) then Ok (id s)
  else if truthy_str (idx s) then Ok (idx s)
  else Raise AttributeError.

(** The fields the data model declares for each kind, with their widths. *)
Definition has_width (n : nat) (o : option str) : bool :=
  match o with Some x => length x =? n | None => false end.

Definition valid (s : t) : bool :=
  match type s with
  | story =>
      bool_decide (set s = None) && has_width 2 (group s)
      && has_width 4 (id s) && has_width 3 (idx s)
  | home =>
      has_width 5 (set s) && has_width 2 (group s)
      && has_width 4 (id s) && bool_decide (idx s <> None)
  | lyrics | preview =>
      bool_decide (set s = None) && bool_decide (group s = None)
      && bool_decide (id s <> None) && bool_decide (idx s = None)
  end.

End StoryId.

(** ** Values of the external object-graph parser

    A materialised typetree is a Python dict whose values are dynamically
    typed; the operations below raise what Python raises on a value of the
    wrong shape. *)

#[warnings="-register-all"]
Inductive value :=
  | VNone
  | VBool (b : bool)
  | VInt (z : Z)
  | VStr (s : str)
  | VList (l : list value)
  | VDict (kv : list (str * value)).

Abbreviation dict := (list (str * value)).

Fixpoint dict_get (kv : dict) (k : str) : option value :=
  match kv with
  | [] => None
  | (k', v) :: kv' => if bool_decide (k' = k) then Some v else dict_get kv' k
  end.

(** [bool(v)] *)
Definition truthy (v : value) : bool :=
  match v with
  | VNone => false
  | VBool b => b
  | VInt z => negb (z =? 0)%Z
  | VStr s => negb (bool_decide (s = []))
  | VList l => negb (bool_decide (length l = 0))
  | VDict kv => negb (bool_decide (length kv = 0))
  end.

(** [v[k]] for a string key *)
Definition getitem (v : value) (k : str) : exc value :=
  match v with
  | VDict kv => match dict_get kv k with Some x => Ok x | None => Raise KeyError end
  | _ => Raise TypeError
  end.

(** [v.get(k, d)]; only dicts have the method. *)
Definition get (v : value) (k : str) (d : value) : exc value :=
  match v with
  | VDict kv => Ok (default d (dict_get kv k))
  | _ => Raise AttributeError
  end.

(** [for x in v] *)
Definition iter (v : value) : exc (list value) :=
  match v with
  | VList l => Ok l
  | VStr s => Ok ((fun c => VStr [c]) <$> s)
  | VDict kv => Ok ((fun e => VStr e.1) <$> kv)
  | _ => Raise TypeError
  end.

(** The values that are not [None], in order. *)
Definition present {A} (l : list (option A)) : list A := omap (fun x => x) l.

(** A list comprehension whose element expression may raise. *)
Fixpoint mapE {A B} (f : A -> exc B) (l : list A) : exc (list B) :=
  match l with
  | [] => Ok []
  | x :: l' => y ← f x; ys ← mapE f l'; Ok (y :: ys)
  end.

(** An object of the parsed bundle: [serialized_type] is [None] when the
    attribute is missing or falsy and [Some nodes] otherwise, [nodes] telling
    whether its node list is non-empty; [read_typetree] is the result of the
    call of that name. *)
Record ObjectReader := {
  serialized_type : option bool;
  read_typetree : exc dict
}.

(** What [UnityPy.load] returns: the objects of the bundle, and the
    path-id table of the assets file ([files]). *)
Record Environment := {
  objects : list ObjectReader;
  files : list (Z * ObjectReader)
}.

(** ** Utilities *)

(** [sanitizeFilename]: the characters of [fn] whose code point is above 31
    and outside [delSet]. *)
Definition delSet : list N := [34; 42; 47; 58; 60; 62; 63; 92; 124]%N.

Definition keep_char (c : N) : bool :=
  (31 <? c)%N && negb (bool_decide (c ∈ delSet)).

Definition ord (c : value) : exc N :=
  match c with VStr [cp] => Ok cp | _ => Raise TypeError end.

Definition sanitizeFilename (fn : value) : exc str :=
  cs ← iter fn;
  cps ← mapE ord cs;
  Ok (filter (fun c => keep_char c = true) cps).

(** ** TYPE_CONFIG *)

Module TYPE_CONFIG.

Definition no_wrap (t : text_type) : bool :=
  match t with home => true | _ => false end.

Definition pattern (t : text_type) (s : StoryId.t) : str :=
  match t with
  | story =>
      lit "story/data/" ++ fmt (StoryId.group s) ++ lit "/" ++ fmt (StoryId.id s)
      ++ lit "/storytimeline%" ++ fmt (StoryId.idx s)
  | home =>
      lit "home/data/" ++ fmt (StoryId.set s) ++ lit "/" ++ fmt (StoryId.group s)
      ++ lit "/hometimeline_" ++ fmt (StoryId.set s) ++ lit "_" ++ fmt (StoryId.group s)
      ++ lit "_" ++ fmt (StoryId.id s) ++ fmt (StoryId.idx s) ++ lit "%"
  | lyrics =>
      lit "live/musicscores/m" ++ fmt (StoryId.id s) ++ lit "/m" ++ fmt (StoryId.id s)
      ++ lit "_lyrics"
  | preview =>
      lit "outgame/announceevent/loguiasset/ast_announce_event_log_ui_asset_0"
      ++ fmt (StoryId.id s)
  end.

Definition filename (t : text_type) (s : StoryId.t) (title : str) : str :=
  match t with
  | story => lit "storytimeline_" ++ StoryId.to_str s ++ lit ".json"
  | home =>
      lit "hometimeline_" ++ fmt (StoryId.set s) ++ lit "_" ++ fmt (StoryId.group s)
      ++ lit "_" ++ fmt (StoryId.id s) ++ fmt (StoryId.idx s) ++ lit ".json"
  | lyrics => fmt (StoryId.id s) ++ lit ".json"
  | preview =>
      match title with
      | _ :: _ => fmt (StoryId.id s) ++ lit " (" ++ title ++ lit ").json"
      | [] => fmt (StoryId.id s) ++ lit ".json"
      end
  end.

End TYPE_CONFIG.

(** ** Filesystem

    A path is the list of its components (a component is not split at a
    separator it may contain). The filesystem maps the path of every file
    to its node; a directory exists when some file lies below it, so
    [mkdir(parents=True, exist_ok=True)] changes nothing. Writes succeed. *)

Abbreviation path := (list str).

Inductive fnode :=
  | Regular (data : bytes)
  | Unreadable.

Abbreviation filesystem := (gmap path fnode).

(** [Path.exists()] *)
Definition path_exists (fs : filesystem) (p : path) : bool :=
  existsb (fun q => bool_decide (p `prefix_of` q)) (map_to_list fs).*1.

(** The names directly inside directory [d]. *)
Definition strip_dir (d p : path) : option str :=
  if bool_decide (d `prefix_of` p) then head (drop (length d) p) else None.

Definition listdir (fs : filesystem) (d : path) : list str :=
  omap (strip_dir d) (map_to_list fs).*1.

(** Shell-style matching of one name, for patterns made of literal
    characters, [*] (42) and [?] (63). *)
Fixpoint fnmatch (pat : str) : str -> bool :=
  match pat with
  | [] => fun name => bool_decide (name = [])
  | c :: pat' =>
      if (c =? 42)%N then
        fix star (name : str) : bool :=
          fnmatch pat' name
          || match name with [] => false | _ :: name' => star name' end
      else fun name =>
        match name with
        | [] => false
        | d :: name' => ((c =? 63)%N || (c =? d)%N) && fnmatch pat' name'
        end
  end.

(** [any(d.glob(pat))] *)
Definition glob_any (fs : filesystem) (d : path) (pat : str) : bool :=
  existsb (fnmatch pat) (listdir fs d).

(** [open(p, "rb")] followed by reading: the content of a readable file. *)
Definition read_bytes (fs : filesystem) (p : path) : exc bytes :=
  match fs !! p with
  | Some (Regular data) => Ok data
  | _ => Raise OSError
  end.

(** What the program does to the filesystem, in order. *)
Inductive event :=
  | EvOpen (p : path)     (* a bundle opened by [is_patched] *)
  | EvLoad (p : path)     (* a bundle read and handed to the parser *)
  | EvWrite (p : path).   (* an output file written *)

Record world := {
  fs : gmap path fnode;
  log : list event
}.

(** ** GameBundle, continued *)

Definition editMark : bytes := [8; 4]%Z.

(** [f.seek(-2, os.SEEK_END); f.read(2)]: seeking before the start of the
    file raises OSError. *)
Definition read_last2 (data : bytes) : exc bytes :=
  if length data <? 2 then Raise OSError else Ok (drop (length data - 2) data).

Definition is_patched (fs : filesystem) (p : path) : bool :=
  try_except
    (f ← read_bytes fs p;
     tail ← read_last2 f;
     Ok (bool_decide (tail = editMark)))
    false.

(** [createPath(root, name)] *)
Definition createPath (root : path) (name : str) : path :=
  root ++ [take 2 name; name].

(** [key in tree] for a typetree. *)
Definition has_key (tree : dict) (k : str) : bool :=
  bool_decide (is_Some (dict_get tree k)).

(** The body of the loop of [load] that looks for the root object; an
    exception inside it moves on to the next object. *)
Definition is_root (obj : ObjectReader) : bool :=
  match serialized_type obj with
  | Some true =>
      try_except
        (tree ← read_typetree obj;
         Ok (has_key tree (lit "BlockList") || has_key tree (lit "TextTrack")))
        false
  | _ => false
  end.

Definition find_root (objs : list ObjectReader) : option ObjectReader :=
  head (filter (fun o => is_root o = true) objs).

(** The state [load] leaves on the bundle object. *)
Record loaded := {
  rootAsset : option ObjectReader;
  assets : list (Z * ObjectReader)
}.

(** [asset.assets[pathId]] for a path id read from a typetree: [None]
    when the key is not in the table, an exception when it is
    unhashable. *)
Fixpoint table_get (t : list (Z * ObjectReader)) (z : Z) : option ObjectReader :=
  match t with
  | [] => None
  | (k, o) :: t' => if (k =? z)%Z then Some o else table_get t' z
  end.

Definition assets_get (assets : list (Z * ObjectReader)) (pathId : value)
    : exc (option ObjectReader) :=
  match pathId with
  | VInt z => Ok (table_get assets z)
  | VBool b => Ok (table_get assets (if b then 1 else 0)%Z)
  | VNone | VStr _ => Ok None
  | VList _ | VDict _ => Raise TypeError
  end.

(** ** Extraction *)

(** The argument of [extractText]: a typetree value (a lyrics row, a
    preview entry) or an object of the bundle. *)
Inductive pyobj :=
  | Val (v : value)
  | Reader (o : ObjectReader).

(** [extractText]; the result is a dict or [None]. The ["race"] branch is
    left out: [--type] admits [TARGET_TYPES] only. *)
Definition extractText (assetType : text_type) (obj : pyobj) : exc (option dict) :=
  match assetType with
  | lyrics =>
      match obj with
      | Val v =>
          row ← iter v;
          match row with
          | time :: text :: _ =>
              Ok (Some [(lit "jpText", text); (lit "enText", VStr []); (lit "time", time)])
          | _ => Raise ValueError
          end
      | Reader _ => Raise TypeError
      end
  | preview =>
      match obj with
      | Val v =>
          name ← getitem v (lit "Name");
          text ← getitem v (lit "Text");
          Ok (Some [(lit "jpName", name); (lit "jpText", text)])
      | Reader _ => Raise TypeError
      end
  | _ =>
      match obj with
      | Reader o =>
          match serialized_type o with
          | None => Raise AttributeError
          | Some false => Ok None
          | Some true =>
              tree ← read_typetree o;
              name ← getitem (VDict tree) (lit "Name");
              text ← getitem (VDict tree) (lit "Text");
              next ← getitem (VDict tree) (lit "NextBlock");
              let o := [(lit "jpName", name); (lit "jpText", text); (lit "nextBlock", next)] in
              o ← match dict_get tree (lit "ChoiceDataList") with
                  | Some cdl =>
                      if truthy cdl then
                        cs ← iter cdl;
                        choices ← mapE (fun c => t ← getitem c (lit "Text");
                                                 Ok (VDict [(lit "jpText", t)])) cs;
                        Ok (o ++ [(lit "choices", VList choices)])
                      else Ok o
                  | None => Ok o
                  end;
              Ok (if truthy text then Some o else None)
          end
      | Val _ => Raise AttributeError
      end
  end.

(** The output document. *)
Record export := {
  title : value;
  no_wrap : bool;
  text_block_list : list value
}.

(** Lines 534-542: the block built from a text object, with its choices. *)
Definition h_block (textData : dict) : exc value :=
  let base :=
    [(lit "name", default (VStr []) (dict_get textData (lit "jpName")));
     (lit "text", default (VStr []) (dict_get textData (lit "jpText")))] in
  match dict_get textData (lit "choices") with
  | Some cs =>
      l ← iter cs;
      found ← mapE (fun c => shown ← get c (lit "jpText") VNone;
                             if truthy shown
                             then Some <$> getitem c (lit "jpText")
                             else Ok None) l;
      let choices := present found in
      Ok (VDict (if bool_decide (length choices = 0)
                 then base
                 else base ++ [(lit "choice_data_list", VList choices)]))
  | None => Ok (VDict base)
  end.

(** Lines 518-544: one clip; [None] stands for [continue]. A non-empty
    dict is the only truthy [textData]. *)
Definition clip_block (ty : text_type) (assets : list (Z * ObjectReader))
    (clip : value) : exc (option value) :=
  pathId ← getitem clip (lit "m_PathID");
  found ← assets_get assets pathId;
  match found with
  | None => Ok None
  | Some obj =>
      textData ← extractText ty (Reader obj);
      match textData with
      | Some (e :: d) => Some <$> h_block (e :: d)
      | _ => Ok None
      end
  end.

Definition block_clips (ty : text_type) (assets : list (Z * ObjectReader))
    (block : value) : exc (list value) :=
  track ← getitem block (lit "TextTrack");
  clipList ← getitem track (lit "ClipList");
  clips ← iter clipList;
  found ← mapE (clip_block ty assets) clips;
  Ok (present found).

(** Lines 547-553: one entry of [DataArray]. *)
Definition preview_block (block : value) : exc (option value) :=
  textData ← extractText preview (Val block);
  match textData with
  | Some (e :: d) =>
      Ok (Some (VDict
        [(lit "name", default (VStr []) (dict_get (e :: d) (lit "jpName")));
         (lit "text", default (VStr []) (dict_get (e :: d) (lit "jpText")))]))
  | _ => Ok None
  end.

(** Lines 516-553: the text blocks of the root typetree, by type. There
    is no branch for [lyrics]. *)
Definition text_blocks (ty : text_type) (assets : list (Z * ObjectReader))
    (tree : dict) : exc (list value) :=
  match ty with
  | story | home =>
      blockList ← getitem (VDict tree) (lit "BlockList");
      blocks ← iter blockList;
      found ← mapE (block_clips ty assets) blocks;
      Ok (concat found)
  | preview =>
      dataArray ← getitem (VDict tree) (lit "DataArray");
      blocks ← iter dataArray;
      found ← mapE preview_block blocks;
      Ok (present found)
  | lyrics => Ok []
  end.

(** Lines 558-565: the output file name. *)
Definition output_filename (ty : text_type) (storyId : StoryId.t)
    (exp : export) : exc str :=
  match ty with
  | story => Ok (lit "storytimeline_" ++ StoryId.to_str storyId ++ lit ".json")
  | home =>
      Ok (lit "hometimeline_" ++ fmt (StoryId.set storyId) ++ lit "_"
          ++ fmt (StoryId.group storyId) ++ lit "_" ++ fmt (StoryId.id storyId)
          ++ fmt (StoryId.idx storyId) ++ lit ".json")
  | _ =>
      title ← sanitizeFilename (title exp);
      idxString ← match title with
                  | _ :: _ => Ok (fmt (StoryId.idx storyId) ++ lit " (" ++ title ++ lit ")")
                  | [] => fmt <$> StoryId.getFilenameIdx storyId
                  end;
      Ok (idxString ++ lit ".json")
  end.

Module Args.
(** The parsed command line, as far as extraction reads it. *)
Record t := {
  type : text_type;
  dst : path;
  overwrite : bool;
  workers : Z
}.
End Args.



Section Pipeline.

(** The bundle storage root, and the two external collaborators: the
    object-graph parser and the JSON serialiser. *)
Variable GAME_ASSET_ROOT : path.
Variable UnityPy_load : bytes -> exc Environment.
Variable json_dump : export -> bytes.

(** [GameBundle.load]: [None] when the method returns before setting
    [rootAsset]. With a zero key the parser reads the file itself;
    [decode] is the identity there. *)
Definition load (fs : filesystem) (bundlePath : path) (bundle_key : Z)
    : exc (option loaded) :=
  if negb (path_exists fs bundlePath) then Ok None
  else
    file_data ← read_bytes fs bundlePath;
    data ← decode file_data bundle_key;
    env ← UnityPy_load data;
    let root := find_root (objects env) in
    Ok (Some {| rootAsset := root;
                assets := match root with Some _ => files env | None => [] end |}).

Definition extractAsset (fs : filesystem) (bundlePath : path) (bundle_key : Z)
    (storyId : StoryId.t) (current_args : Args.t) : exc (option (export * str)) :=
  asset ← load fs bundlePath bundle_key;
  match asset with
  | None => Ok None
  | Some asset =>
      match rootAsset asset with
      | None => Ok None
      | Some root =>
          match serialized_type root with
          | Some true =>
              tree ← read_typetree root;
              let ty := Args.type current_args in
              blocks ← text_blocks ty (assets asset) tree;
              let exp := {| title := default (VStr []) (dict_get tree (lit "Title"));
                            no_wrap := TYPE_CONFIG.no_wrap ty;
                            text_block_list := blocks |} in
              if bool_decide (blocks = []) then Ok None
              else
                filename ← output_filename ty storyId exp;
                Ok (Some (exp, filename))
          | _ => Ok None
          end
      end
  end.

(** Lines 577-579 *)
Definition exportDir_of (current_args : Args.t) (storyId : StoryId.t) : path :=
  let ty := Args.type current_args in
  Args.dst current_args ++ [type_name ty]
  ++ (if lyrics_or_preview ty then [] else StoryId.asPath storyId).

(** Lines 584-595: whether the task stops because its output is there. *)
Definition output_exists (fs : filesystem) (current_args : Args.t)
    (storyId : StoryId.t) : exc bool :=
  let exportDir := exportDir_of current_args storyId in
  if Args.overwrite current_args then Ok false
  else
    match Args.type current_args with
    | story =>
        Ok (path_exists fs
              (exportDir ++ [lit "storytimeline_" ++ StoryId.to_str storyId ++ lit ".json"]))
    | home =>
        Ok (path_exists fs
              (exportDir ++ [lit "hometimeline_" ++ fmt (StoryId.set storyId) ++ lit "_"
                             ++ fmt (StoryId.group storyId) ++ lit "_"
                             ++ fmt (StoryId.id storyId) ++ fmt (StoryId.idx storyId)
                             ++ lit ".json"]))
    | _ =>
        name ← StoryId.getFilenameIdx storyId;
        Ok (glob_any fs exportDir (fmt name ++ lit "*.json"))
    end.

Definition log_event (ev : event) (w : world) : world :=
  {| fs := fs w; log := log w ++ [ev] |}.

Definition writeJson (file : path) (data : export) (w : world) : world :=
  {| fs := <[file := Regular (json_dump data)]> (fs w);
     log := log w ++ [EvWrite file] |}.

(** Lines 611-630: load, extract and write; any exception of the
    extraction is caught and the task returns [None]. *)
Definition extract_and_write (bundle_path : path) (bundle_key : Z)
    (storyId : StoryId.t) (current_args : Args.t) (w : world)
    : option str * world :=
  let w := log_event (EvLoad bundle_path) w in
  match extractAsset (fs w) bundle_path bundle_key storyId current_args with
  | Ok (Some (outData, filename)) =>
      (Some filename,
       writeJson (exportDir_of current_args storyId ++ [filename]) outData w)
  | Ok None | Raise _ => (None, w)
  end.

Definition exportAsset (bundle_hash unity_path : str) (bundle_key : Z)
    (current_args : Args.t) (w : world) : exc (option str) * world :=
  let storyId := StoryId.parseFromPath (Args.type current_args) unity_path in
  match output_exists (fs w) current_args storyId with
  | Raise e => (Raise e, w)
  | Ok true => (Ok None, w)
  | Ok false =>
      let bundle_path := createPath GAME_ASSET_ROOT bundle_hash in
      if negb (path_exists (fs w) bundle_path) then (Ok None, w)
      else
        let w := log_event (EvOpen bundle_path) w in
        if is_patched (fs w) bundle_path then (Ok None, w)
        else
          let '(res, w) := extract_and_write bundle_path bundle_key storyId current_args w in
          (Ok res, w)
  end.




End Pipeline.

(** ** Concrete bundles, used to run the pipeline on explicit inputs *)

Module Fixture.

Definition root : path := [lit "dat"].

(** A parser that answers with a fixed object graph, and a serialiser
    that writes nothing: the statements below do not depend on either. *)
Definition parse_as (env : Environment) (_ : bytes) : exc Environment := Ok env.
Definition dump (_ : export) : bytes := [].

Definition present_hash : str := lit "ABCDEF".

(** One plaintext bundle on disk, and an empty output directory. *)
Definition disk : world :=
  {| fs := {[ createPath root present_hash := Regular [1; 2; 3]%Z ]};
     log := [] |}.

(** A preview bundle with a title and one name/text pair. *)
Definition preview_env : Environment :=
  {| objects :=
       [{| serialized_type := Some true;
           read_typetree :=
             Ok [(lit "Title", VStr (lit "Event"));
                 (lit "TextTrack", VList []);
                 (lit "DataArray",
                  VList [VDict [(lit "Name", VStr (lit "A"));
                                (lit "Text", VStr (lit "Hello"))]])] |}];
     files := [] |}.

Definition preview_hint : str :=
  lit "outgame/announceevent/loguiasset/ast_announce_event_log_ui_asset_00001".

Definition preview_args : Args.t :=
  {| Args.type := preview; Args.dst := [lit "raw"];
     Args.overwrite := false; Args.workers := 4 |}.

(** A lyrics bundle whose root carries a text track of [time, text] rows. *)
Definition lyrics_row : value := VList [VInt 1500; VStr (lit "la la")].

Definition lyrics_env : Environment :=
  {| objects :=
       [{| serialized_type := Some true;
           read_typetree := Ok [(lit "TextTrack", VList [lyrics_row])] |}];
     files := [] |}.

Definition lyrics_hint : str := lit "live/musicscores/m1001/m1001_lyrics".

Definition lyrics_args : Args.t :=
  {| Args.type := lyrics; Args.dst := [lit "raw"];
     Args.overwrite := false; Args.workers := 4 |}.


End Fixture.

(** ** Statements about identifiers *)

(** The fields a lyrics or preview identifier does not carry. *)
Definition flat_fields_absent (s : StoryId.t) : Prop :=
  StoryId.set s = None /\ StoryId.group s = None /\ StoryId.idx s = None.

(** ** Further utilities *)


(** [a or b] for attributes that are [None] or a string. *)
Definition or_else (a b : option str) : option str :=
  if truthy_str a then a else b.



(** ** The command line and the query *)

Module Cli.

(** The namespace [argparse] returns, as far as the identifier reads it. *)
Record t := {
  type : text_type;
  set : option str;
  group : option str;
  id : option str;
  idx : option str;
  story : option str
}.

(** [Args.parse_args], lines 435-444: a composite [--story] identifier
    fills the fields the other flags left unset. *)
Definition parse_args (a : t) : t :=
  match story a with
  | Some (c :: sid) =>
      let s := StoryId.parse (type a) (c :: sid) in
      {| type := type a;
         set := or_else (set a) (StoryId.set s);
         group := or_else (group a) (StoryId.group s);
         id := or_else (id a) (StoryId.id s);
         idx := or_else (idx a) (StoryId.idx s);
         story := story a |}
  | _ => a
  end.

(** Line 667: the identifier [main] queries the index for. *)
Definition storyId (a : t) : StoryId.t :=
  StoryId.init (type a) (set a) (group a) (id a) (idx a).

End Cli.

(** [queryDB], lines 450-455: the [LIKE] pattern handed to the index
    database (every target type has its [TYPE_CONFIG] entry). *)
Definition query_pattern (storyId : StoryId.t) : str :=
  TYPE_CONFIG.pattern (StoryId.type storyId) (StoryId.queryfy storyId).

(** ** The native SQLite engine

    The dynamically loaded library is replaced by its answers: what
    [sqlite3_open_v2] returns for a path (status, and whether the handle it
    stores is non-null), the status of [sqlite3_key], whether
    [sqlite3_backup_init] returns a handle, and the status of the n-th call
    of [sqlite3_backup_step]. *)

Definition SQLITE_OK : Z := 0.
Definition SQLITE_DONE : Z := 101.

Record sqlite3mc := {
  sqlite3_open_v2 : str -> Z * bool;
  sqlite3_key : Z;
  sqlite3_backup_init : bool;
  sqlite3_backup_step : nat -> Z
}.

Inductive handle := SrcDb | DstDb.

#[global] Instance handle_eq_dec : EqDecision handle.
Proof. solve_decision. Defined.

(** The calls into the library, in order. *)
Inductive native_call :=
  | CallOpen (h : handle)
  | CallClose (h : handle)
  | CallConfig
  | CallKey
  | CallErrmsg
  | CallBackupInit
  | CallBackupStep
  | CallBackupFinish.

#[global] Instance native_call_eq_dec : EqDecision native_call.
Proof. solve_decision. Defined.

(** How a call of the module ends: with a value, with [RuntimeError], or
    not within the given number of backup steps. *)
Inductive ending (A : Type) :=
  | Returned (a : A)
  | RuntimeError
  | Running.
Arguments Returned {A} a.
Arguments RuntimeError {A}.
Arguments Running {A}.

(** [SQLite3MC.open], lines 163-168 *)
Definition open_ok (api : sqlite3mc) (p : str) : bool :=
  let '(rc, db) := sqlite3_open_v2 api p in
  (rc =? SQLITE_OK)%Z && db.

(** The [while True] loop of [backup_to_file], lines 191-200, from the
    [k]-th step on: the status it returns and the number of steps it made;
    [None] when [fuel] steps did not end it. *)
Fixpoint backup_loop (step : nat -> Z) (fuel k : nat) : option Z * nat :=
  match fuel with
  | 0 => (None, 0)
  | S fuel' =>
      let rc := step k in
      if (rc =? SQLITE_DONE)%Z then (Some SQLITE_OK, 1)
      else if (rc =? SQLITE_OK)%Z then
        let '(r, n) := backup_loop step fuel' (S k) in (r, S n)
      else (Some rc, 1)
  end.

(** [SQLite3MC.backup_to_file], lines 181-204 *)
Definition backup_to_file (api : sqlite3mc) (fuel : nat) (dst_path : str)
    : ending Z * list native_call :=
  if negb (open_ok api dst_path) then (RuntimeError, [CallOpen DstDb])
  else if negb (sqlite3_backup_init api) then
    (Returned 1%Z, [CallOpen DstDb; CallBackupInit; CallClose DstDb])
  else
    match backup_loop (sqlite3_backup_step api) fuel 0 with
    | (Some rc, n) =>
        (Returned rc,
         [CallOpen DstDb; CallBackupInit] ++ replicate n CallBackupStep
         ++ [CallBackupFinish; CallClose DstDb])
    | (None, n) =>
        (Running, [CallOpen DstDb; CallBackupInit] ++ replicate n CallBackupStep)
    end.

(** [decrypt_meta_file], lines 212-242. [dll_exists] is the test of line
    216; [cdll] is [None] when loading the library raises. The result is
    [None] when the backup has not ended within [fuel] steps. *)
Definition decrypt_meta_file (dll_exists : bool) (cdll : option sqlite3mc)
    (fuel : nat) (src_path dst_path : str) : option bool * list native_call :=
  if negb dll_exists then (Some false, [])
  else
    match cdll with
    | None => (Some false, [])
    | Some api =>
        if negb (open_ok api src_path) then (Some false, [CallOpen SrcDb])
        else
          let prefix := [CallOpen SrcDb; CallConfig; CallKey] in
          if negb (sqlite3_key api =? SQLITE_OK)%Z
          then (Some false, prefix ++ [CallErrmsg; CallClose SrcDb])
          else
            match backup_to_file api fuel dst_path with
            | (Returned rc_bk, calls) =>
                (Some (rc_bk =? SQLITE_OK)%Z, prefix ++ calls ++ [CallClose SrcDb])
            | (RuntimeError, calls) =>
                (Some false, prefix ++ calls ++ [CallClose SrcDb])
            | (Running, calls) => (None, prefix ++ calls)
            end
    end.

(** ** Statements about extracted blocks and native calls *)

(** A block with a name, a non-empty text and, when it lists choices, at
    least one choice, none of them empty. *)
Definition has_text (b : value) : Prop :=
  exists kv name text,
    b = VDict kv
    /\ dict_get kv (lit "name") = Some name
    /\ dict_get kv (lit "text") = Some text
    /\ truthy text = true
    /\ (forall cs, dict_get kv (lit "choice_data_list") = Some cs ->
          exists l, cs = VList l /\ l <> []
                    /\ Forall (fun c => truthy c = true) l).

(** The calls of a decryption up to and including [n] backup steps. *)
Definition backup_calls (n : nat) : list native_call :=
  [CallOpen SrcDb; CallConfig; CallKey; CallOpen DstDb; CallBackupInit]
  ++ replicate n CallBackupStep.

(** ** A concrete story bundle and a scripted native library *)

Module StoryFixture.

(** A story timeline with one block, one clip and its text object, which
    offers two choices, the second of them empty. *)
Definition text_object : ObjectReader :=
  {| serialized_type := Some true;
     read_typetree :=
       Ok [(lit "Name", VStr (lit "Narrator"));
           (lit "Text", VStr (lit "Hello"));
           (lit "NextBlock", VInt 2);
           (lit "ChoiceDataList",
            VList [VDict [(lit "Text", VStr (lit "Yes"))];
                   VDict [(lit "Text", VStr [])]])] |}.

Definition tree : dict :=
  [(lit "Title", VStr (lit "Prologue"));
   (lit "BlockList",
    VList [VDict [(lit "TextTrack",
                   VDict [(lit "ClipList",
                           VList [VDict [(lit "m_PathID", VInt 5)]])])]])].

Definition env : Environment :=
  {| objects := [{| serialized_type := Some true; read_typetree := Ok tree |}];
     files := [(5%Z, text_object)] |}.

Definition hint : str := lit "story/data/01/0002/storytimeline_010002003".

Definition args : Args.t :=
  {| Args.type := story; Args.dst := [lit "raw"];
     Args.overwrite := false; Args.workers := 4 |}.

(** A bundle on disk that ends with the patched marker. *)
Definition patched_disk : world :=
  {| fs := {[ createPath Fixture.root Fixture.present_hash
              := Regular ([1; 2; 3]%Z ++ editMark) ]};
     log := [] |}.

(** A native library that accepts the key and finishes the backup at its
    third step. *)
Definition api : sqlite3mc :=
  {| sqlite3_open_v2 := fun _ => (0%Z, true);
     sqlite3_key := 0;
     sqlite3_backup_init := true;
     sqlite3_backup_step := fun n => if n <? 2 then 0%Z else 101%Z |}.

End StoryFixture.

(** * Key derivation *)

Lemma store_row_length b off fk l :
  length (foldl (store_row b off) fk l) = length fk.
Proof.
  revert fk; induction l as [|[j k] l IH]; intros fk; simpl; [done|].
  rewrite IH. unfold store_row. by rewrite length_insert.
Qed.

(** The inner loop writes [b ^ k] over one row and nothing else. *)
Lemma store_row_lookup b off rk : forall n fk p,
  off + n + length rk <= length fk ->
  foldl (store_row b off) fk (enumerate_from n rk) !! p =
    if decide (off + n <= p < off + n + length rk)
    then Z.lxor b <$> rk !! (p - (off + n))
    else fk !! p.
Proof.
  induction rk as [|k rk IH]; intros n fk p Hlen; simpl in *.
  - case_decide; [lia|done].
  - rewrite IH; last first.
    { unfold store_row. rewrite length_insert. simpl. lia. }
    unfold store_row; simpl.
    destruct (decide (p = off + n)) as [->|Hne].
    + rewrite decide_False by lia. rewrite decide_True by lia.
      rewrite Nat.sub_diag. simpl. rewrite list_lookup_insert_eq by lia. done.
    + rewrite list_lookup_insert_ne by lia.
      case_decide; case_decide; try lia; try done.
      replace (p - (off + n)) with (S (p - (off + S n))) by lia. done.
Qed.

Lemma store_rows_length bk fk l :
  length (foldl (store_rows bk) fk l) = length fk.
Proof.
  revert fk; induction l as [|[i b] l IH]; intros fk; simpl; [done|].
  rewrite IH. unfold store_rows. by rewrite store_row_length.
Qed.

Lemma shiftl3 i : Nat.shiftl i 3 = i * 8.
Proof. rewrite Nat.shiftl_mul_pow2. reflexivity. Qed.

(** The outer loop: row [i] of the key holds base byte [i] xor-ed with
    each byte of the record key. *)
Lemma store_rows_lookup bk base : length bk = 8 -> forall n fk i j,
  (n + length base) * 8 <= length fk ->
  j < 8 ->
  foldl (store_rows bk) fk (enumerate_from n base) !! (i * 8 + j) =
    if decide (n <= i < n + length base)
    then b ← base !! (i - n); Z.lxor b <$> bk !! j
    else fk !! (i * 8 + j).
Proof.
  intros Hbk. induction base as [|b base IH]; intros n fk i j Hlen Hj; simpl in *.
  - case_decide; [lia|done].
  - rewrite IH; [|unfold store_rows; rewrite store_row_length; lia|done].
    destruct (decide (i = n)) as [->|Hne].
    + rewrite decide_False by lia. rewrite decide_True by lia.
      rewrite Nat.sub_diag. simpl.
      unfold store_rows; cbn [fst snd]. rewrite shiftl3.
      unfold enumerate. rewrite store_row_lookup by lia.
      rewrite Nat.add_0_r, Hbk. rewrite decide_True by lia. do 2 f_equal. lia.
    + case_decide; case_decide; try lia.
      * replace (i - n) with (S (i - S n)) by lia. done.
      * unfold store_rows; cbn [fst snd]. rewrite shiftl3.
        unfold enumerate. rewrite store_row_lookup by lia.
        rewrite Hbk. rewrite decide_False by lia. done.
Qed.

Lemma to_bytes8_ok k :
  in_int64 k = true -> to_bytes8 k = Ok (map (le_byte k) (seq 0 8)).
Proof. intros H. unfold to_bytes8. by rewrite H. Qed.

Lemma le_byte_range k j : is_byte (le_byte k j).
Proof. unfold is_byte, le_byte. apply Z.mod_pos_bound. lia. Qed.

Lemma from_bytes_le_digits (m : Z) (n a : nat) :
  from_bytes_le (map (fun j => ((m / 2 ^ (8 * Z.of_nat j)) mod 256)%Z) (seq a n))
  = ((m / 2 ^ (8 * Z.of_nat a)) mod 2 ^ (8 * Z.of_nat n))%Z.
Proof.
  revert a; induction n as [|n IH]; intros a.
  - simpl. by rewrite Z.mod_1_r.
  - cbn [seq map from_bytes_le]. rewrite IH.
    replace (8 * Z.of_nat (S n))%Z with (8 + 8 * Z.of_nat n)%Z by lia.
    replace (8 * Z.of_nat (S a))%Z with (8 * Z.of_nat a + 8)%Z by lia.
    rewrite !Z.pow_add_r by lia.
    rewrite <- Z.div_div by lia.
    change (2 ^ 8)%Z with 256%Z.
    rewrite Z.rem_mul_r by lia. reflexivity.
Qed.

(** The eight bytes read back as the key modulo 2^64: two's complement. *)
Lemma from_bytes_le_to_bytes8 k :
  from_bytes_le (map (le_byte k) (seq 0 8)) = (k mod 2 ^ 64)%Z.
Proof.
  unfold le_byte. rewrite (from_bytes_le_digits (k mod 2 ^ 64) 8 0).
  change (8 * Z.of_nat 0)%Z with 0%Z. change (8 * Z.of_nat 8)%Z with 64%Z.
  rewrite Z.pow_0_r, Z.div_1_r. apply Z.mod_mod. lia.
Qed.

Lemma fromhex_base_key :
  fromhex BUNDLE_BASE_KEY = Ok [83; 43; 70; 49; 228; 167; 185; 71; 62; 124; 251]%Z.
Proof. reflexivity. Qed.

Lemma final_key_of_ok (base_key : bytes) k :
  in_int64 k = true ->
  final_key_of base_key k =
    Ok (foldl (store_rows (map (le_byte k) (seq 0 8)))
          (replicate (length base_key * 8) 0%Z) (enumerate base_key)).
Proof. intros Hk. unfold final_key_of. by rewrite (to_bytes8_ok _ Hk). Qed.

(** C1: for every base key and every signed 64-bit record key, the key
    derivation encodes the record key as 8 little-endian two's-complement
    bytes and returns a buffer of length [len(base_key) * 8] whose byte at
    index [i*8 + j] is [base_key[i] XOR recordKeyBytes[j]]; the result is a
    function of the inputs, and [_create_final_key] is this derivation at
    the fixed base key. *)
Theorem final_key_of_spec (base_key : bytes) (bundle_key : Z) :
  in_int64 bundle_key = true ->
  exists recordKeyBytes output,
    to_bytes8 bundle_key = Ok recordKeyBytes
    /\ length recordKeyBytes = 8
    /\ Forall is_byte recordKeyBytes
    /\ from_bytes_le recordKeyBytes = (bundle_key mod 2 ^ 64)%Z
    /\ final_key_of base_key bundle_key = Ok output
    /\ length output = length base_key * 8
    /\ (forall i j b r, base_key !! i = Some b -> recordKeyBytes !! j = Some r ->
          output !! (i * 8 + j) = Some (Z.lxor b r))
    /\ (forall output', final_key_of base_key bundle_key = Ok output' -> output' = output)
    /\ (exists base, fromhex BUNDLE_BASE_KEY = Ok base
          /\ _create_final_key bundle_key = final_key_of base bundle_key).
Proof.
  intros Hk. pose proof (to_bytes8_ok _ Hk) as Hrk.
  eexists; eexists. split; [exact Hrk|].
  assert (Hlen : length (map (le_byte bundle_key) (seq 0 8)) = 8) by reflexivity.
  split; [exact Hlen|].
  split.
  { apply Forall_forall. intros x Hx.
    apply list_elem_of_fmap in Hx as (j & -> & _). apply le_byte_range. }
  split; [apply from_bytes_le_to_bytes8|].
  pose proof (final_key_of_ok base_key _ Hk) as Hout.
  split; [exact Hout|].
  split; [by rewrite store_rows_length, length_replicate|].
  split.
  { intros i j b r Hb Hr.
    pose proof (lookup_lt_Some _ _ _ Hb) as Hi.
    pose proof (lookup_lt_Some _ _ _ Hr) as Hj. rewrite Hlen in Hj.
    unfold enumerate.
    rewrite (store_rows_lookup _ _ Hlen) by (rewrite ?length_replicate; lia).
    rewrite decide_True by lia. rewrite Nat.sub_0_r, Hb.
    cbn [mbind option_bind]. by rewrite Hr. }
  split. { intros o' Ho'. congruence. }
  eexists. split; [apply fromhex_base_key|]. reflexivity.
Qed.

Lemma final_key_of_spec_witness :
  in_int64 (-2) = true
  /\ exists recordKeyBytes output,
       to_bytes8 (-2) = Ok recordKeyBytes
       /\ final_key_of [83; 43]%Z (-2) = Ok output
       /\ length output = 16
       /\ output !! 9 = Some (Z.lxor 43 255).
Proof.
  split; [reflexivity|].
  destruct (final_key_of_spec [83; 43]%Z (-2) eq_refl)
    as (rk & out & Hrk & _ & _ & _ & Hout & Hlen & Hxor & _).
  exists rk, out. repeat split; try assumption.
  apply (Hxor 1 1 43%Z 255%Z); [reflexivity|].
  rewrite to_bytes8_ok in Hrk by reflexivity. injection Hrk as <-. reflexivity.
Defined.

(** * Stream decryption *)

Lemma xor_at_length fk d i : length (xor_at fk d i) = length d.
Proof.
  unfold xor_at. destruct (d !! i); [|done].
  destruct (fk !! _); [|done]. by rewrite length_insert.
Qed.

Lemma xor_stream_length fk l : forall d, length (foldl (xor_at fk) d l) = length d.
Proof.
  induction l as [|i l IH]; intros d; simpl; [done|].
  by rewrite IH, xor_at_length.
Qed.

(** The loop over [range(a, a + n)] xors exactly the bytes of that range,
    each with the key byte at its offset modulo the key length. *)
Lemma xor_stream_lookup (fk : bytes) : 0 < length fk -> forall n a (d : bytes) p,
  a + n <= length d ->
  foldl (xor_at fk) d (seq a n) !! p =
    if decide (a <= p < a + n)
    then x ← d !! p; k ← fk !! (p mod length fk); Some (Z.lxor x k)
    else d !! p.
Proof.
  intros Hfk. induction n as [|n IH]; intros a d p Hlen; simpl.
  - case_decide; [lia|done].
  - rewrite IH by (rewrite xor_at_length; lia).
    destruct (lookup_lt_is_Some_2 d a ltac:(lia)) as [x Hx].
    destruct (lookup_lt_is_Some_2 fk (a mod length fk)) as [k Hk].
    { apply Nat.mod_upper_bound. lia. }
    unfold xor_at. rewrite Hx, Hk.
    destruct (decide (p = a)) as [->|Hne].
    + rewrite decide_False by lia. rewrite decide_True by lia.
      rewrite list_lookup_insert_eq by lia. rewrite Hx. cbn [mbind option_bind].
      by rewrite Hk.
    + rewrite list_lookup_insert_ne by lia.
      case_decide; case_decide; try lia; done.
Qed.

(** The derived key of a bundle has 88 bytes, so [i % len(final_key)] is
    always an index of it. *)
Lemma create_final_key_ok k :
  in_int64 k = true ->
  exists fk, _create_final_key k = Ok fk /\ length fk = 88.
Proof.
  intros Hk. unfold _create_final_key. rewrite fromhex_base_key.
  cbn [mbind exc_bind]. rewrite (final_key_of_ok _ _ Hk).
  eexists. split; [reflexivity|].
  by rewrite store_rows_length, length_replicate.
Qed.

Lemma decrypt_ok k (data : bytes) :
  in_int64 k = true -> 256 < length data ->
  exists fk out, _create_final_key k = Ok fk /\ length fk = 88
    /\ _decrypt k data = Ok out /\ length out = length data
    /\ forall p, out !! p =
         if decide (256 <= p)
         then x ← data !! p; kb ← fk !! (p mod length fk); Some (Z.lxor x kb)
         else data !! p.
Proof.
  intros Hk Hlen. destruct (create_final_key_ok k Hk) as (fk & Hfk & Hfl).
  exists fk. eexists. split; [done|]. split; [done|].
  unfold _decrypt. rewrite Hfk. cbn [mbind exc_bind]. split; [reflexivity|].
  split; [apply xor_stream_length|].
  intros p. rewrite xor_stream_lookup by lia.
  destruct (decide (p < length data)) as [Hp|Hp].
  - case_decide; case_decide; try lia; done.
  - rewrite (lookup_ge_None_2 data p) by lia. by repeat case_decide.
Qed.

(** C2: a zero record key is a pure passthrough; for a non-zero signed
    64-bit record key, [decode] keeps the bytes at offsets below 256, xors
    every byte at an offset of at least 256 with
    [derivedKey[offset % len(derivedKey)]], and returns the buffer as it is
    when it has at most 256 bytes. *)
Theorem decode_spec (raw : bytes) (recordKey : Z) :
  in_int64 recordKey = true ->
  decode raw 0 = Ok raw
  /\ (recordKey <> 0%Z ->
      exists derivedKey out,
        _create_final_key recordKey = Ok derivedKey
        /\ 0 < length derivedKey
        /\ decode raw recordKey = Ok out
        /\ length out = length raw
        /\ (forall offset, offset < 256 -> out !! offset = raw !! offset)
        /\ (forall offset x, 256 <= offset -> raw !! offset = Some x ->
              exists kb, derivedKey !! (offset mod length derivedKey) = Some kb
                /\ out !! offset = Some (Z.lxor x kb))
        /\ (length raw <= 256 -> out = raw)).
Proof.
  intros Hk. split; [reflexivity|]. intros Hnz.
  unfold decode. rewrite (proj2 (Z.eqb_neq _ _) Hnz).
  destruct (Nat.ltb_spec 256 (length raw)) as [Hlong|Hshort].
  - destruct (decrypt_ok recordKey raw Hk Hlong)
      as (fk & out & Hfk & Hfl & Hout & Hlen & Hlk).
    exists fk, out. repeat split; try done; try lia.
    + intros p Hp. rewrite Hlk. by rewrite decide_False by lia.
    + intros p x Hp Hx. rewrite Hlk, decide_True, Hx by lia.
      cbn [mbind option_bind].
      destruct (lookup_lt_is_Some_2 fk (p mod length fk)) as [kb Hkb].
      { apply Nat.mod_upper_bound. lia. }
      exists kb. by rewrite Hkb.
  - destruct (create_final_key_ok recordKey Hk) as (fk & Hfk & Hfl).
    exists fk, raw. repeat split; try done; try lia.
    intros p x Hp Hx. apply lookup_lt_Some in Hx. lia.
Qed.

Lemma decode_spec_witness :
  in_int64 1 = true
  /\ decode (replicate 258 5%Z) 0 = Ok (replicate 258 5%Z)
  /\ exists out, decode (replicate 258 5%Z) 1 = Ok out
       /\ out !! 0 = Some 5%Z
       /\ out !! 256 = Some (Z.lxor 5 250).
Proof.
  split; [reflexivity|].
  destruct (decode_spec (replicate 258 5%Z) 1 eq_refl) as [Hzero Hnz].
  split; [exact Hzero|].
  destruct (Hnz ltac:(discriminate))
    as (fk & out & Hfk & _ & Hout & _ & Hhead & Htail & _).
  exists out. split; [exact Hout|]. split.
  - rewrite Hhead by lia. reflexivity.
  - destruct (Htail 256 5%Z ltac:(lia) eq_refl) as (kb & Hkb & ->).
    vm_compute in Hfk. injection Hfk as <-. vm_compute in Hkb.
    injection Hkb as <-. reflexivity.
Defined.

(** C3: decoding twice with the same signed 64-bit record key gives the
    original buffer back (for a zero key as well as a non-zero one). *)
Theorem decode_involutive (raw : bytes) (k : Z) :
  in_int64 k = true ->
  exists once, decode raw k = Ok once /\ decode once k = Ok raw.
Proof.
  intros Hk. unfold decode.
  destruct (Z.eqb_spec k 0) as [->|Hnz]; [by exists raw|].
  destruct (Nat.ltb_spec 256 (length raw)) as [Hlong|Hshort].
  - destruct (decrypt_ok k raw Hk Hlong)
      as (fk & once & Hfk & Hfl & Honce & Hlen & Hlk).
    exists once. split; [done|].
    rewrite Hlen. rewrite (proj2 (Nat.ltb_lt _ _) Hlong).
    destruct (decrypt_ok k once Hk ltac:(lia))
      as (fk' & twice & Hfk' & _ & Htwice & Hlen' & Hlk').
    assert (fk' = fk) as -> by congruence.
    rewrite Htwice. f_equal. apply list_eq. intros p.
    rewrite Hlk', Hlk. case_decide; [|done].
    destruct (raw !! p) as [x|] eqn:Hx; [|done]. cbn [mbind option_bind].
    destruct (lookup_lt_is_Some_2 fk (p mod length fk)) as [kb Hkb].
    { apply Nat.mod_upper_bound. lia. }
    rewrite Hkb. cbn [mbind option_bind]. f_equal.
    rewrite Z.lxor_assoc, Z.lxor_nilpotent, Z.lxor_0_r. done.
  - exists raw. split; [done|].
    by rewrite (proj2 (Nat.ltb_ge _ _) Hshort).
Qed.

Lemma decode_involutive_witness :
  in_int64 (-7) = true
  /\ exists once, decode (replicate 300 9%Z) (-7) = Ok once
       /\ decode once (-7) = Ok (replicate 300 9%Z).
Proof.
  split; [reflexivity|].
  exact (decode_involutive (replicate 300 9%Z) (-7) eq_refl).
Defined.

(** * Identifier codec *)

Lemma has_width_Some n o :
  StoryId.has_width n o = true -> exists x, o = Some x /\ length x = n.
Proof.
  destruct o as [x|]; simpl; [|done]. intros H%Nat.eqb_eq. eauto.
Qed.

Lemma take_app_width {A} (x y : list A) n : length x = n -> take n (x ++ y) = x.
Proof. intros <-. by rewrite take_app_length. Qed.

Lemma drop_app_width {A} (x y : list A) n : length x = n -> drop n (x ++ y) = y.
Proof. intros <-. by rewrite drop_app_length. Qed.

Lemma slice_app_width {A} (x y z : list A) a b :
  length x = a -> length y = b - a -> slice a b (x ++ y ++ z) = y.
Proof.
  intros Hx Hy. unfold slice. rewrite (drop_app_width x _ a Hx).
  by apply take_app_width.
Qed.

Lemma to_str_story ty g d x :
  StoryId.to_str (StoryId.mk ty None (Some g) (Some d) (Some x)) = g ++ d ++ x.
Proof. unfold StoryId.to_str. simpl. by rewrite app_nil_r. Qed.

Lemma to_str_home ty e g d x :
  StoryId.to_str (StoryId.mk ty (Some e) (Some g) (Some d) (Some x)) = e ++ g ++ d ++ x.
Proof. unfold StoryId.to_str. simpl. by rewrite app_nil_r. Qed.

Lemma to_str_flat ty d :
  StoryId.to_str (StoryId.mk ty None None (Some d) None) = d.
Proof. unfold StoryId.to_str. simpl. by rewrite app_nil_r. Qed.

(** C4: for every identifier that carries the fields of its kind with
    their declared widths, parsing its string form gives the identifier
    back, for Story, Home, Lyrics and Preview. *)
Theorem parse_to_str (s : StoryId.t) :
  StoryId.valid s = true ->
  StoryId.parse (StoryId.type s) (StoryId.to_str s) = s.
Proof.
  destruct s as [ty st gr i ix]. unfold StoryId.valid;
    cbn [StoryId.type StoryId.set StoryId.group StoryId.id StoryId.idx].
  destruct ty; intros H; rewrite !andb_true_iff in H;
    destruct H as [[[H H0] H1] H2].
  - (* story *)
    apply bool_decide_eq_true in H as ->.
    destruct (has_width_Some _ _ H0) as (g & -> & Hg).
    destruct (has_width_Some _ _ H1) as (d & -> & Hd).
    destruct (has_width_Some _ _ H2) as (x & -> & Hx).
    rewrite to_str_story. unfold StoryId.parse; cbn [lyrics_or_preview].
    rewrite bool_decide_eq_false_2 by done. rewrite andb_false_r.
    unfold StoryId.init; cbn [lyrics_or_preview].
    rewrite (take_app_width g _ 2 Hg).
    rewrite (slice_app_width g d x 2 6 Hg) by (rewrite Hd; reflexivity).
    rewrite app_assoc.
    rewrite (drop_app_width (g ++ d) x 6) by (rewrite length_app; lia).
    reflexivity.
  - (* home *)
    destruct (has_width_Some _ _ H) as (e & -> & He).
    destruct (has_width_Some _ _ H0) as (g & -> & Hg).
    destruct (has_width_Some _ _ H1) as (d & -> & Hd).
    apply bool_decide_eq_true in H2. destruct ix as [x|]; [|done].
    rewrite to_str_home. unfold StoryId.parse; cbn [lyrics_or_preview].
    rewrite bool_decide_eq_true_2 by done.
    replace (9 <? length (e ++ g ++ d ++ x)) with true
      by (symmetry; apply Nat.ltb_lt; rewrite !length_app; lia).
    cbn [andb]. unfold StoryId.init; cbn [lyrics_or_preview].
    rewrite (take_app_width e _ 5 He).
    rewrite (slice_app_width e g (d ++ x) 5 7 He) by (rewrite Hg; reflexivity).
    rewrite (app_assoc e g).
    rewrite (slice_app_width (e ++ g) d x 7 11) by (rewrite ?length_app; lia).
    rewrite (app_assoc (e ++ g) d).
    rewrite (drop_app_width ((e ++ g) ++ d) x 11) by (rewrite !length_app; lia).
    reflexivity.
  - (* lyrics *)
    apply bool_decide_eq_true in H as ->, H0 as ->, H2 as ->, H1.
    destruct i as [d|]; [|done].
    rewrite to_str_flat.
    unfold StoryId.parse, StoryId.init; cbn [lyrics_or_preview truthy_str].
    by rewrite andb_false_r.
  - (* preview *)
    apply bool_decide_eq_true in H as ->, H0 as ->, H2 as ->, H1.
    destruct i as [d|]; [|done].
    rewrite to_str_flat.
    unfold StoryId.parse, StoryId.init; cbn [lyrics_or_preview truthy_str].
    by rewrite andb_false_r.
Qed.

Lemma parse_to_str_witness :
  let s := StoryId.mk home (Some (lit "00001")) (Some (lit "01"))
             (Some (lit "0002")) (Some (lit "003")) in
  StoryId.valid s = true /\ StoryId.parse home (StoryId.to_str s) = s.
Proof.
  split; [reflexivity|].
  exact (parse_to_str
           (StoryId.mk home (Some (lit "00001")) (Some (lit "01"))
              (Some (lit "0002")) (Some (lit "003"))) eq_refl).
Defined.

Lemma init_type ty st gr i ix : StoryId.type (StoryId.init ty st gr i ix) = ty.
Proof. unfold StoryId.init. by destruct (lyrics_or_preview ty). Qed.

Lemma parseFromPath_type ty p : StoryId.type (StoryId.parseFromPath ty p) = ty.
Proof. destruct ty; apply init_type. Qed.

Lemma init_flat ty st gr i ix :
  lyrics_or_preview ty = true -> flat_fields_absent (StoryId.init ty st gr i ix).
Proof. intros H. unfold StoryId.init. rewrite H. by repeat split. Qed.

(** The claim of C5 fails at [queryfy]: a preview identifier comes back
    with the two-underscore group placeholder. *)
Lemma queryfy_preview_group :
  StoryId.group
    (StoryId.queryfy (StoryId.mk preview None None (Some (lit "0001")) None))
  = Some (lit "__").
Proof. reflexivity. Qed.

(** C5, amended: for Lyrics and Preview, [set], [group] and [idx] are
    absent after construction from fields, [parse] and [parseFromPath];
    [queryfy] leaves all three absent for Lyrics, and for Preview it leaves
    [set] and [idx] absent and fills [group] with the two-underscore
    placeholder (its guard on [group] excludes Lyrics only). *)
Theorem flat_kinds_fields (st gr i ix : option str) (s : str) :
  (forall ty, lyrics_or_preview ty = true ->
     flat_fields_absent (StoryId.init ty st gr i ix)
     /\ flat_fields_absent (StoryId.parse ty s)
     /\ flat_fields_absent (StoryId.parseFromPath ty s))
  /\ flat_fields_absent (StoryId.queryfy (StoryId.mk lyrics st gr i ix))
  /\ (let q := StoryId.queryfy (StoryId.mk preview st gr i ix) in
      StoryId.set q = None /\ StoryId.idx q = None
      /\ StoryId.group q = Some (lit "__")).
Proof.
  split; [|split].
  - intros ty Hty. split; [by apply init_flat|]. split.
    + unfold StoryId.parse. rewrite Hty. by apply init_flat.
    + destruct ty; try done; by apply init_flat.
  - unfold StoryId.queryfy, StoryId.init; cbn.
    destruct (negb (truthy_str i) && truthy_str ix); [destruct ix|destruct i]; by cbn.
  - unfold StoryId.queryfy, StoryId.init; cbn.
    destruct (negb (truthy_str i) && truthy_str ix); [destruct ix|destruct i]; by cbn.
Qed.

Lemma flat_kinds_fields_witness :
  flat_fields_absent
    (StoryId.init lyrics (Some (lit "00001")) (Some (lit "01")) None (Some (lit "1001")))
  /\ StoryId.group
       (StoryId.queryfy (StoryId.mk preview None (Some (lit "01")) (Some (lit "0001")) None))
     = Some (lit "__").
Proof.
  split.
  - exact (proj1 (proj1 (flat_kinds_fields (Some (lit "00001")) (Some (lit "01")) None
                           (Some (lit "1001")) []) lyrics eq_refl)).
  - exact (proj2 (proj2 (proj2 (proj2 (flat_kinds_fields None (Some (lit "01"))
                                         (Some (lit "0001")) None []))))).
Defined.

(** * The patched-bundle marker *)

Lemma is_patched_regular (files : gmap path fnode) p data :
  files !! p = Some (Regular data) ->
  is_patched files p
  = (negb (length data <? 2) && bool_decide (drop (length data - 2) data = editMark)).
Proof.
  intros Hp. unfold is_patched, read_bytes, read_last2. rewrite Hp.
  cbn [mbind exc_bind]. by destruct (length data <? 2).
Qed.



(** * The extraction pipeline *)

Section PipelineFacts.

Variable GAME_ASSET_ROOT : path.
Variable UnityPy_load : bytes -> exc Environment.
Variable json_dump : export -> bytes.

Lemma getFilenameIdx_flat s :
  lyrics_or_preview (StoryId.type s) = true ->
  StoryId.getFilenameIdx s = Ok (StoryId.id s).
Proof. intros H. unfold StoryId.getFilenameIdx. by rewrite H. Qed.




(** The first half of C9 holds on the code: when the existing-output
    check finds the output, the task returns [None] and neither the
    filesystem nor the log changes (the bundle is not opened or read). *)
Lemma exportAsset_existing_output hash hint key args w :
  output_exists (fs w) args (StoryId.parseFromPath (Args.type args) hint) = Ok true ->
  exportAsset GAME_ASSET_ROOT UnityPy_load json_dump hash hint key args w
  = (Ok None, w).
Proof. intros H. unfold exportAsset. by rewrite H. Qed.







(** The file name of a preview record with a title: the f-string formats
    [storyId.idx], which is [None] for a preview identifier. *)
Lemma output_filename_preview_titled hint exp c t :
  sanitizeFilename (title exp) = Ok (c :: t) ->
  output_filename preview (StoryId.parseFromPath preview hint) exp
  = Ok ((lit "None" ++ lit " (" ++ (c :: t) ++ lit ")") ++ lit ".json").
Proof.
  intros Ht. unfold output_filename. rewrite Ht. reflexivity.
Qed.

End PipelineFacts.

(** * The pipeline on explicit inputs *)




(** C6: a lyrics bundle with one [time, text] row. [extractText] turns the
    row into a text entry, but [extractAsset] never walks the rows: it
    returns [None] and the task writes nothing. *)
Theorem lyrics_rows_not_extracted :
  extractText lyrics (Val Fixture.lyrics_row)
  = Ok (Some [(lit "jpText", VStr (lit "la la")); (lit "enText", VStr []);
              (lit "time", VInt 1500)])
  /\ extractAsset (Fixture.parse_as Fixture.lyrics_env) (fs Fixture.disk)
       (createPath Fixture.root Fixture.present_hash) 0
       (StoryId.parseFromPath lyrics Fixture.lyrics_hint) Fixture.lyrics_args
     = Ok None
  /\ exportAsset Fixture.root (Fixture.parse_as Fixture.lyrics_env) Fixture.dump
       Fixture.present_hash Fixture.lyrics_hint 0 Fixture.lyrics_args Fixture.disk
     = (Ok None,
        {| fs := fs Fixture.disk;
           log := [EvOpen (createPath Fixture.root Fixture.present_hash);
                   EvLoad (createPath Fixture.root Fixture.present_hash)] |}).
Proof. vm_compute. done. Qed.

(** C7: a preview record with id [0001] and title [Event]. The file name
    computed by [extractAsset] is [None (Event).json]; the template of
    [TYPE_CONFIG] gives [0001 (Event).json]. *)
Theorem preview_filename_is_None_title :
  extractAsset (Fixture.parse_as Fixture.preview_env) (fs Fixture.disk)
    (createPath Fixture.root Fixture.present_hash) 0
    (StoryId.parseFromPath preview Fixture.preview_hint) Fixture.preview_args
  = Ok (Some ({| title := VStr (lit "Event"); no_wrap := false;
                 text_block_list := [VDict [(lit "name", VStr (lit "A"));
                                            (lit "text", VStr (lit "Hello"))]] |},
              lit "None (Event).json"))
  /\ StoryId.id (StoryId.parseFromPath preview Fixture.preview_hint) = Some (lit "0001")
  /\ TYPE_CONFIG.filename preview
       (StoryId.parseFromPath preview Fixture.preview_hint) (lit "Event")
     = lit "0001 (Event).json".
Proof. vm_compute. done. Qed.

(** C9: the same preview record exported twice without overwrite. The
    first run writes [raw/preview/None (Event).json]; the second run looks
    for [0001*.json], finds nothing, and reads, extracts and writes again
    instead of returning [None]. *)
Theorem second_run_extracts_again :
  let task := exportAsset Fixture.root (Fixture.parse_as Fixture.preview_env)
                Fixture.dump Fixture.present_hash Fixture.preview_hint 0
                Fixture.preview_args in
  let bundle := createPath Fixture.root Fixture.present_hash in
  let out := [lit "raw"; lit "preview"; lit "None (Event).json"] in
  (task Fixture.disk).1 = Ok (Some (lit "None (Event).json"))
  /\ fs (task Fixture.disk).2 !! out = Some (Regular [])
  /\ (task (task Fixture.disk).2).1 = Ok (Some (lit "None (Event).json"))
  /\ log (task (task Fixture.disk).2).2
     = [EvOpen bundle; EvLoad bundle; EvWrite out;
        EvOpen bundle; EvLoad bundle; EvWrite out].
Proof. vm_compute. done. Qed.

(** * Further properties of the code *)

(** * File-name sanitising *)

Lemma mapE_ord_chars (s : str) : mapE ord ((fun c => VStr [c]) <$> s) = Ok s.
Proof.
  induction s as [|c s IH]; [done|].
  cbn [fmap list_fmap mapE ord mbind exc_bind]. rewrite IH. done.
Qed.

Lemma sanitizeFilename_str (s : str) :
  sanitizeFilename (VStr s) = Ok (filter (fun c => keep_char c = true) s).
Proof.
  unfold sanitizeFilename. cbn [iter mbind exc_bind].
  rewrite mapE_ord_chars. done.
Qed.

Lemma keep_char_spec c :
  keep_char c = true <-> (31 < c)%N /\ c ∉ delSet.
Proof.
  unfold keep_char. rewrite andb_true_iff, N.ltb_lt, negb_true_iff.
  rewrite bool_decide_eq_false. done.
Qed.

(** X1: on a string, [sanitizeFilename] never raises; its result is a
    subsequence of the input that holds no control character and none of
    the nine forbidden characters, keeps every other character of the
    input, is left unchanged by a second pass, and is the input itself
    when the input was already clean. *)
Theorem sanitizeFilename_safe (fn : str) :
  exists out,
    sanitizeFilename (VStr fn) = Ok out
    /\ out `sublist_of` fn
    /\ Forall (fun c => (31 < c)%N /\ c ∉ delSet) out
    /\ (forall c, c ∈ fn -> (31 < c)%N -> c ∉ delSet -> c ∈ out)
    /\ sanitizeFilename (VStr out) = Ok out
    /\ (Forall (fun c => (31 < c)%N /\ c ∉ delSet) fn -> out = fn).
Proof.
  exists (filter (fun c => keep_char c = true) fn).
  split; [apply sanitizeFilename_str|].
  split; [apply sublist_filter|].
  split.
  { apply Forall_forall. intros c Hc. apply list_elem_of_filter in Hc as [Hk _].
    by apply keep_char_spec. }
  split.
  { intros c Hc H1 H2. apply list_elem_of_filter. split; [|done].
    by apply keep_char_spec. }
  split.
  { rewrite sanitizeFilename_str. f_equal. apply list_filter_filter_l.
    intros c Hc. done. }
  intros Hall. induction Hall as [|c l Hc Hl IH]; [done|].
  rewrite filter_cons. rewrite decide_True by (by apply keep_char_spec).
  by rewrite IH.
Qed.

(** * Identifiers and paths *)

Lemma suffix_app_width {A} (pre x : list A) n :
  length x = n -> suffix n (pre ++ x) = x.
Proof.
  intros <-. unfold suffix. rewrite length_app.
  replace (length pre + length x - length x) with (length pre) by lia.
  by rewrite drop_app_length.
Qed.

Lemma slice_mid {A} (x y z : list A) a b :
  length x = a -> length y = b - a -> slice a b (x ++ y ++ z) = y.
Proof. apply slice_app_width. Qed.

Lemma slice_end {A} (x y : list A) a b :
  length x = a -> length y = b - a -> slice a b (x ++ y) = y.
Proof.
  intros Hx Hy. rewrite <- (app_nil_r y) at 1. rewrite (slice_mid x y [] a b Hx Hy). done.
Qed.

(** X2: for a story or home identifier with the declared widths (idx of
    width 3), [parseFromPath] applied to any path that ends with the stem
    of the identifier's output file name gives the identifier back. *)
Theorem parseFromPath_filename_stem (pre stem title : str) (s : StoryId.t) :
  StoryId.valid s = true ->
  StoryId.has_width 3 (StoryId.idx s) = true ->
  lyrics_or_preview (StoryId.type s) = false ->
  TYPE_CONFIG.filename (StoryId.type s) s title = stem ++ lit ".json" ->
  StoryId.parseFromPath (StoryId.type s) (pre ++ stem) = s.
Proof.
  destruct s as [ty st gr i ix]. unfold StoryId.valid;
    cbn [StoryId.type StoryId.set StoryId.group StoryId.id StoryId.idx].
  intros H Hx3 Hty Hstem.
  destruct (has_width_Some _ _ Hx3) as (x & -> & Hx).
  destruct ty; try done; rewrite !andb_true_iff in H;
    destruct H as [[[H H0] H1] _].
  - apply bool_decide_eq_true in H as ->.
    destruct (has_width_Some _ _ H0) as (g & -> & Hg).
    destruct (has_width_Some _ _ H1) as (d & -> & Hd).
    cbn [TYPE_CONFIG.filename] in Hstem. rewrite to_str_story in Hstem.
    rewrite app_assoc in Hstem. apply app_inv_tail in Hstem. subst stem.
    cbn [StoryId.parseFromPath]. rewrite !app_assoc.
    rewrite <- (app_assoc _ g d), <- (app_assoc _ (g ++ d) x), <- (app_assoc g d x).
    rewrite (suffix_app_width _ (g ++ d ++ x) 9) by (rewrite !length_app; lia).
    unfold StoryId.init; cbn [lyrics_or_preview].
    rewrite (take_app_width g _ 2 Hg).
    rewrite (slice_mid g d x 2 6 Hg) by (rewrite Hd; reflexivity).
    rewrite (app_assoc g d x).
    rewrite (slice_end (g ++ d) x 6 9) by (rewrite ?length_app; lia).
    reflexivity.
  - destruct (has_width_Some _ _ H) as (e & -> & He).
    destruct (has_width_Some _ _ H0) as (g & -> & Hg).
    destruct (has_width_Some _ _ H1) as (d & -> & Hd).
    cbn [TYPE_CONFIG.filename fmt default] in Hstem.
    change (from_option id (lit "None") (Some ?v)) with v in Hstem.
    assert (stem = lit "hometimeline_" ++ e ++ lit "_" ++ g ++ lit "_" ++ d ++ x) as ->.
    { apply (app_inv_tail (lit ".json")). rewrite <- Hstem.
      by rewrite <- !app_assoc. }
    cbn [StoryId.parseFromPath].
    rewrite (app_assoc pre).
    rewrite (suffix_app_width _ (e ++ lit "_" ++ g ++ lit "_" ++ d ++ x) 16)
      by (rewrite !length_app, He, Hg, Hd, Hx; reflexivity).
    unfold StoryId.init; cbn [lyrics_or_preview].
    rewrite (take_app_width e _ 5 He).
    rewrite (app_assoc e (lit "_")).
    rewrite (slice_mid (e ++ lit "_") g _ 6 8)
      by (rewrite ?length_app, ?He, ?Hg; reflexivity).
    rewrite (app_assoc (e ++ lit "_") g), (app_assoc _ (lit "_")).
    rewrite (slice_mid (((e ++ lit "_") ++ g) ++ lit "_") d x 9 13)
      by (rewrite ?length_app, ?He, ?Hg, ?Hd; reflexivity).
    rewrite (app_assoc _ d x).
    rewrite (drop_app_width _ x 13)
      by (rewrite ?length_app, ?He, ?Hg, ?Hd; reflexivity).
    reflexivity.
Qed.

Lemma suffix_length {A} n (s : list A) : length (suffix n s) <= n.
Proof. unfold suffix. rewrite length_drop. lia. Qed.

(** X3: [parseFromPath] does not fail on a short path, it keeps what is
    there: the fields of a story identifier always concatenate to the last
    nine characters of the path (the whole path when it is shorter), a
    preview id is the last four characters, a lyrics id is empty for a
    path of at most seven characters, and a story path of at most two
    characters ends up whole in [group]. *)
Theorem parseFromPath_short_paths (path : str) :
  StoryId.to_str (StoryId.parseFromPath story path) = suffix 9 path
  /\ StoryId.id (StoryId.parseFromPath preview path) = Some (suffix 4 path)
  /\ (length path <= 7 -> StoryId.id (StoryId.parseFromPath lyrics path) = Some [])
  /\ (length path <= 2 ->
        StoryId.parseFromPath story path
        = StoryId.mk story None (Some path) (Some []) (Some [])).
Proof.
  split; [|split; [|split]].
  - cbn [StoryId.parseFromPath]. unfold StoryId.init; cbn [lyrics_or_preview].
    rewrite to_str_story. pose proof (suffix_length 9 path) as Hlen.
    set (s := suffix 9 path) in *. unfold slice.
    replace (take (9 - 6) (drop 6 s)) with (drop 6 s)
      by (symmetry; apply take_ge; rewrite length_drop; lia).
    replace (drop 6 s) with (drop 4 (drop 2 s)) by (by rewrite drop_drop).
    change (6 - 2) with 4. by rewrite !take_drop.
  - cbn [StoryId.parseFromPath].
    unfold StoryId.init; cbn [lyrics_or_preview truthy_str StoryId.id].
    by rewrite andb_false_r.
  - intros Hlen.
    assert (length path - 7 = 0) as H7 by lia.
    assert (length path - 11 = 0) as H11 by lia.
    unfold StoryId.parseFromPath, slice. rewrite H7, H11.
    unfold StoryId.init; cbn [lyrics_or_preview truthy_str StoryId.id].
    by rewrite andb_false_r.
  - intros Hlen. cbn [StoryId.parseFromPath]. unfold StoryId.init; cbn [lyrics_or_preview].
    unfold suffix, slice. replace (length path - 9) with 0 by lia. rewrite !drop_0.
    rewrite (take_ge path 2) by lia.
    rewrite (drop_ge path 2), (drop_ge path 6) by lia. done.
Qed.

Lemma parseFromPath_short_paths_witness :
  StoryId.parseFromPath story (lit "01")
  = StoryId.mk story None (Some (lit "01")) (Some []) (Some []).
Proof.
  apply (proj2 (proj2 (proj2 (parseFromPath_short_paths (lit "01"))))).
  vm_compute. lia.
Defined.

Lemma init_flat_id ty st gr (i : str) :
  lyrics_or_preview ty = true ->
  StoryId.init ty st gr (Some i) None = StoryId.mk ty None None (Some i) None.
Proof.
  intros Hty. unfold StoryId.init. rewrite Hty. cbn [truthy_str].
  by rewrite andb_false_r.
Qed.

Lemma queryfy_flat_id ty (i : str) :
  lyrics_or_preview ty = true ->
  StoryId.id (StoryId.queryfy (StoryId.mk ty None None (Some i) None)) = Some i.
Proof.
  intros Hty. unfold StoryId.queryfy.
  cbn [StoryId.type StoryId.set StoryId.group StoryId.id StoryId.idx].
  rewrite (init_flat_id _ _ _ _ Hty).
  destruct ty; try done; reflexivity.
Qed.

(** X4: for lyrics and preview and an id of width 4, the path that the
    query pattern of the identifier spells parses back to that
    identifier. *)
Theorem parseFromPath_query_pattern (ty : text_type) (i : str) :
  lyrics_or_preview ty = true ->
  length i = 4 ->
  StoryId.parseFromPath ty (query_pattern (StoryId.init ty None None (Some i) None))
  = StoryId.init ty None None (Some i) None.
Proof.
  intros Hty Hi. rewrite (init_flat_id _ _ _ _ Hty).
  unfold query_pattern. cbn [StoryId.type].
  pose proof (queryfy_flat_id ty i Hty) as Hq.
  destruct ty; try done; cbn [TYPE_CONFIG.pattern StoryId.parseFromPath];
    rewrite Hq; unfold fmt; cbn [default from_option];
    rewrite (init_flat_id _ _ _ _ Hty); do 3 f_equal; unfold id.
  - set (p := lit "live/musicscores/m" ++ i ++ lit "/m").
    replace (lit "live/musicscores/m" ++ i ++ lit "/m" ++ i ++ lit "_lyrics")
      with (p ++ i ++ lit "_lyrics") by (unfold p; by rewrite <- !app_assoc).
    unfold slice. rewrite !length_app, Hi.
    change (length (lit "_lyrics")) with 7.
    replace (length p + (4 + 7) - 11) with (length p) by lia.
    replace (length p + (4 + 7) - 7 - length p) with 4 by lia.
    rewrite drop_app_length. by apply take_app_width.
  - by apply suffix_app_width.
Qed.

(** The placeholder of each field. *)
Lemma queryfy_cases ty st gr i ix :
  lyrics_or_preview ty = false ->
  StoryId.queryfy (StoryId.mk ty st gr i ix)
  = StoryId.mk ty
      (if bool_decide (ty = home) then Some (default (lit "_____") st) else st)
      (Some (default (lit "__") gr))
      (Some (default (lit "____") i))
      (Some (default (lit "___") ix)).
Proof.
  intros Hty. destruct ty; try done; destruct st, gr, i, ix; reflexivity.
Qed.

(** X5: for story and home, [queryfy] keeps the type and every field
    that is set, and fills an unset field with underscores of the field's
    width (set: 5, for home only; group: 2; id: 4; idx: 3); for every
    type, applying [queryfy] twice is the same as applying it once. *)
Theorem queryfy_fills_placeholders (s : StoryId.t) :
  (lyrics_or_preview (StoryId.type s) = false ->
     let q := StoryId.queryfy s in
     StoryId.type q = StoryId.type s
     /\ StoryId.set q =
          (if bool_decide (StoryId.type s = home)
           then Some (default (replicate 5 95%N) (StoryId.set s))
           else StoryId.set s)
     /\ StoryId.group q = Some (default (replicate 2 95%N) (StoryId.group s))
     /\ StoryId.id q = Some (default (replicate 4 95%N) (StoryId.id s))
     /\ StoryId.idx q = Some (default (replicate 3 95%N) (StoryId.idx s)))
  /\ StoryId.queryfy (StoryId.queryfy s) = StoryId.queryfy s.
Proof.
  destruct s as [ty st gr i ix]. cbn [StoryId.type StoryId.set StoryId.group StoryId.id StoryId.idx].
  split.
  - intros Hty. rewrite (queryfy_cases _ _ _ _ _ Hty). by repeat split.
  - destruct ty.
    + rewrite !queryfy_cases by done. reflexivity.
    + rewrite !queryfy_cases by done. reflexivity.
    + destruct i as [[|c i]|], ix as [[|c' ix]|]; reflexivity.
    + destruct i as [[|c i]|], ix as [[|c' ix]|]; reflexivity.
Qed.

(** X6: after [queryfy] every field that the type's query pattern
    formats is present, so the pattern never contains the text of a
    missing field; for story the pattern is spelled out. *)
Theorem query_pattern_fields_present (s : StoryId.t) :
  let q := StoryId.queryfy s in
  is_Some (StoryId.id q)
  /\ (StoryId.type s = story ->
        is_Some (StoryId.group q) /\ is_Some (StoryId.idx q)
        /\ query_pattern s
           = lit "story/data/" ++ default (lit "__") (StoryId.group s) ++ lit "/"
             ++ default (lit "____") (StoryId.id s) ++ lit "/storytimeline%"
             ++ default (lit "___") (StoryId.idx s))
  /\ (StoryId.type s = home ->
        is_Some (StoryId.set q) /\ is_Some (StoryId.group q) /\ is_Some (StoryId.idx q)).
Proof.
  destruct s as [ty st gr i ix]. cbn [StoryId.type].
  split; [|split].
  - destruct ty.
    + rewrite queryfy_cases by done. by eexists.
    + rewrite queryfy_cases by done. by eexists.
    + destruct i as [[|c i]|], ix as [[|c' ix]|]; by eexists.
    + destruct i as [[|c i]|], ix as [[|c' ix]|]; by eexists.
  - intros ->. unfold query_pattern. rewrite queryfy_cases by done.
    split; [by eexists|]. split; [by eexists|]. reflexivity.
  - intros ->. rewrite queryfy_cases by done. repeat split; by eexists.
Qed.

Lemma init_parse ty x :
  let s := StoryId.parse ty x in
  StoryId.init ty (StoryId.set s) (StoryId.group s) (StoryId.id s) (StoryId.idx s) = s.
Proof.
  unfold StoryId.parse.
  destruct ty; cbn [lyrics_or_preview]; try (destruct x; reflexivity).
  - rewrite bool_decide_eq_false_2 by done. rewrite andb_false_r. reflexivity.
  - destruct ((9 <? length x) && bool_decide (home = home)); reflexivity.
Qed.

(** X7: with a non-empty [--story] value and no other narrowing flag,
    the identifier [main] queries is [StoryId.parse] of that value; for
    story and home a non-empty [--group] flag takes precedence over the
    group of the composite value; the type is never changed. *)
Theorem parse_args_story_id (a : Cli.t) (c : N) (sid : str) :
  Cli.story a = Some (c :: sid) ->
  (Cli.set a = None -> Cli.group a = None -> Cli.id a = None -> Cli.idx a = None ->
     Cli.storyId (Cli.parse_args a) = StoryId.parse (Cli.type a) (c :: sid))
  /\ (forall g, lyrics_or_preview (Cli.type a) = false ->
        Cli.group a = Some g -> g <> [] ->
        StoryId.group (Cli.storyId (Cli.parse_args a)) = Some g)
  /\ Cli.type (Cli.parse_args a) = Cli.type a.
Proof.
  intros Hs. unfold Cli.parse_args. rewrite Hs. split; [|split].
  - intros -> -> -> ->. unfold Cli.storyId, or_else;
      cbn [truthy_str Cli.type Cli.set Cli.group Cli.id Cli.idx].
    apply init_parse.
  - intros g Hty Hg Hne. unfold Cli.storyId, StoryId.init;
      cbn [Cli.type Cli.set Cli.group Cli.id Cli.idx].
    rewrite Hty. cbn [StoryId.group]. rewrite Hg. unfold or_else.
    destruct g; done.
  - reflexivity.
Qed.

(** * Effects of a task *)

Lemma path_exists_lookup (files : gmap path fnode) p n :
  files !! p = Some n -> path_exists files p = true.
Proof.
  intros Hp. unfold path_exists. apply existsb_exists.
  exists p. split.
  - apply list_elem_of_In. apply list_elem_of_fmap. exists (p, n). split; [done|].
    by apply elem_of_map_to_list.
  - by apply bool_decide_eq_true.
Qed.


Lemma Ok_inj {A} (a b : A) : Ok a = Ok b -> a = b.
Proof. congruence. Qed.



Section Effects.

Variable GAME_ASSET_ROOT : path.
Variable UnityPy_load : bytes -> exc Environment.
Variable json_dump : export -> bytes.

Lemma extractAsset_filename files p key sid args exp f :
  extractAsset UnityPy_load files p key sid args = Ok (Some (exp, f)) ->
  output_filename (Args.type args) sid exp = Ok f
  /\ text_block_list exp <> [].
Proof.
  unfold extractAsset.
  destruct (load _ _ _ _) as [[asset|]|]; cbn [mbind exc_bind]; try done.
  destruct (rootAsset asset) as [root|]; [|done].
  destruct (serialized_type root) as [[|]|]; try done.
  destruct (read_typetree root) as [tree|]; cbn [mbind exc_bind]; [|done].
  destruct (text_blocks _ _ _) as [blocks|]; cbn [mbind exc_bind]; [|done].
  case_bool_decide as Hb; [done|].
  destruct (output_filename _ _ _) as [f'|] eqn:Hf; cbn [mbind exc_bind]; [|done].
  intros [= <- <-]. by split.
Qed.



End Effects.

Section Tasks.

Variable GAME_ASSET_ROOT : path.
Variable UnityPy_load : bytes -> exc Environment.
Variable json_dump : export -> bytes.

(** X9: a bundle whose content ends with the marker [08 04] is opened
    once by the check and the task returns [None]: it is not loaded and
    nothing is written. *)
Theorem patched_bundle_skipped hash hint key args w data :
  let bundle := createPath GAME_ASSET_ROOT hash in
  output_exists (fs w) args (StoryId.parseFromPath (Args.type args) hint) = Ok false ->
  fs w !! bundle = Some (Regular (data ++ editMark)) ->
  exportAsset GAME_ASSET_ROOT UnityPy_load json_dump hash hint key args w
  = (Ok None, {| fs := fs w; log := log w ++ [EvOpen bundle] |}).
Proof.
  intros bundle Hout Hfile. unfold exportAsset. fold bundle. rewrite Hout.
  rewrite (path_exists_lookup _ _ _ Hfile). cbn [negb].
  unfold log_event at 1; cbn [fs].
  rewrite (is_patched_regular _ _ _ Hfile).
  rewrite length_app. change (length editMark) with 2.
  replace (length data + 2 - 2) with (length data) by lia.
  rewrite drop_app_length.
  replace (length data + 2 <? 2) with false by (symmetry; apply Nat.ltb_ge; lia).
  rewrite bool_decide_eq_true_2 by done. reflexivity.
Qed.

Lemma exportAsset_written hash hint key args w f w' :
  exportAsset GAME_ASSET_ROOT UnityPy_load json_dump hash hint key args w
    = (Ok (Some f), w') ->
  exists exp,
    output_filename (Args.type args) (StoryId.parseFromPath (Args.type args) hint) exp
      = Ok f
    /\ text_block_list exp <> []
    /\ fs w' = <[exportDir_of args (StoryId.parseFromPath (Args.type args) hint) ++ [f]
                 := Regular (json_dump exp)]> (fs w).
Proof.
  unfold exportAsset.
  destruct (output_exists _ _ _) as [[|]|]; try done.
  destruct (negb _); [done|]. destruct (is_patched _ _); [done|].
  unfold extract_and_write.
  destruct (extractAsset _ _ _ _ _ _) as [[[exp f']|]|e] eqn:Hex; try done.
  intros [= -> <-]. apply extractAsset_filename in Hex as [Hf Hne].
  exists exp. by repeat split.
Qed.

(** X10: for story and home without the overwrite flag, once a task has
    written its file, any task with the same path hint returns [None]
    without changing the filesystem or the log. *)
Theorem story_home_rerun_skipped hash hint key hash' key' args w f w' :
  lyrics_or_preview (Args.type args) = false ->
  Args.overwrite args = false ->
  exportAsset GAME_ASSET_ROOT UnityPy_load json_dump hash hint key args w
    = (Ok (Some f), w') ->
  exportAsset GAME_ASSET_ROOT UnityPy_load json_dump hash' hint key' args w'
    = (Ok None, w').
Proof.
  intros Hty Hov Hrun.
  destruct (exportAsset_written _ _ _ _ _ _ _ Hrun) as (exp & Hname & _ & Hfs).
  apply exportAsset_existing_output.
  unfold output_exists. rewrite Hov.
  unfold output_filename in Hname.
  destruct (Args.type args); try done; apply Ok_inj in Hname; rewrite Hname;
    f_equal; eapply path_exists_lookup; rewrite Hfs; apply lookup_insert_eq.
Qed.






End Tasks.

Section Flat.

Variable GAME_ASSET_ROOT : path.
Variable UnityPy_load : bytes -> exc Environment.
Variable json_dump : export -> bytes.



End Flat.


(** * Keys out of range, and byte values *)

Lemma to_bytes8_overflow k : in_int64 k = false -> to_bytes8 k = Raise OverflowError.
Proof. intros H. unfold to_bytes8. by rewrite H. Qed.

Lemma create_final_key_overflow k :
  in_int64 k = false -> _create_final_key k = Raise OverflowError.
Proof.
  intros H. unfold _create_final_key. rewrite fromhex_base_key.
  cbn [mbind exc_bind]. unfold final_key_of. by rewrite (to_bytes8_overflow _ H).
Qed.

Lemma decode_overflow raw k :
  in_int64 k = false -> 256 < length raw -> decode raw k = Raise OverflowError.
Proof.
  intros Hk Hlen. unfold decode.
  destruct (Z.eqb_spec k 0) as [->|_]; [done|].
  rewrite (proj2 (Nat.ltb_lt _ _) Hlen). unfold _decrypt.
  by rewrite (create_final_key_overflow _ Hk).
Qed.

Lemma decode_in_range raw k :
  in_int64 k = true \/ length raw <= 256 -> exists out, decode raw k = Ok out.
Proof.
  intros H. unfold decode. destruct (k =? 0)%Z; [by eauto|].
  destruct (Nat.ltb_spec 256 (length raw)) as [Hlong|Hshort]; [|by eauto].
  destruct H as [Hk|]; [|lia].
  destruct (decrypt_ok k raw Hk Hlong) as (fk & out & _ & _ & Hout & _). by eauto.
Qed.

Section Overflow.

Variable GAME_ASSET_ROOT : path.
Variable UnityPy_load : bytes -> exc Environment.
Variable json_dump : export -> bytes.

(** X13: [decode] raises exactly when the record key is outside the
    signed 64-bit range and the buffer has more than 256 bytes, and then
    with OverflowError; a task for such a record opens and loads the
    bundle, returns [None] and writes nothing. *)
Theorem out_of_range_key (raw : bytes) (k : Z) :
  (decode raw k = Raise OverflowError <-> in_int64 k = false /\ 256 < length raw)
  /\ (forall e, decode raw k = Raise e -> e = OverflowError)
  /\ (forall hash hint args w,
        let bundle := createPath GAME_ASSET_ROOT hash in
        in_int64 k = false -> 256 < length raw ->
        fs w !! bundle = Some (Regular raw) ->
        output_exists (fs w) args (StoryId.parseFromPath (Args.type args) hint) = Ok false ->
        is_patched (fs w) bundle = false ->
        exportAsset GAME_ASSET_ROOT UnityPy_load json_dump hash hint k args w
        = (Ok None, {| fs := fs w; log := log w ++ [EvOpen bundle; EvLoad bundle] |})).
Proof.
  assert (Hiff : forall e, decode raw k = Raise e ->
            e = OverflowError /\ in_int64 k = false /\ 256 < length raw).
  { intros e He. destruct (in_int64 k) eqn:Hk.
    - destruct (decode_in_range raw k (or_introl Hk)) as [out Hout]. congruence.
    - destruct (Nat.ltb_spec 256 (length raw)) as [Hlong|Hshort].
      + rewrite (decode_overflow _ _ Hk Hlong) in He. injection He as <-. by auto.
      + destruct (decode_in_range raw k (or_intror Hshort)) as [out Hout]. congruence. }
  split; [|split].
  - split; [intros H; by apply Hiff in H as (_ & ? & ?)|].
    intros [Hk Hlen]. by apply decode_overflow.
  - intros e He. by apply Hiff in He as [? _].
  - intros hash hint args w bundle Hk Hlen Hfile Hout Hpat.
    unfold exportAsset. fold bundle. rewrite Hout.
    rewrite (path_exists_lookup _ _ _ Hfile). cbn [negb].
    unfold log_event at 1; cbn [fs]. rewrite Hpat.
    unfold extract_and_write, extractAsset, load.
    cbn [fs log_event]. rewrite (path_exists_lookup _ _ _ Hfile). cbn [negb].
    unfold read_bytes. rewrite Hfile. cbn [mbind exc_bind].
    rewrite (decode_overflow _ _ Hk Hlen). cbn [mbind exc_bind log].
    unfold log_event; cbn [fs log]. by rewrite <- app_assoc.
Qed.

End Overflow.

(** Byte values *)

Lemma lxor_byte a b : is_byte a -> is_byte b -> is_byte (Z.lxor a b).
Proof.
  unfold is_byte. intros [Ha Ha'] [Hb Hb'].
  assert (Hnn : (0 <= Z.lxor a b)%Z) by (apply Z.lxor_nonneg; lia).
  split; [done|].
  destruct (Z.eq_dec (Z.lxor a b) 0%Z) as [->|Hne]; [lia|].
  apply (Z.log2_lt_pow2 _ 8); [lia|].
  pose proof (Z.log2_lxor a b Ha Hb) as Hl.
  assert (Z.log2 a < 8)%Z.
  { destruct (Z.eq_dec a 0%Z) as [->|]; [done|]. apply Z.log2_lt_pow2; lia. }
  assert (Z.log2 b < 8)%Z.
  { destruct (Z.eq_dec b 0%Z) as [->|]; [done|]. apply Z.log2_lt_pow2; lia. }
  lia.
Qed.

Lemma store_row_bytes b off rk : is_byte b -> Forall is_byte rk -> forall n fk,
  Forall is_byte fk ->
  Forall is_byte (foldl (store_row b off) fk (enumerate_from n rk)).
Proof.
  intros Hb Hrk. induction Hrk as [|k rk Hk Hrk IH]; intros n fk Hfk; [done|].
  cbn [enumerate_from foldl]. apply IH. unfold store_row.
  apply Forall_insert; [done|]. by apply lxor_byte.
Qed.

Lemma store_rows_bytes bk base : Forall is_byte bk -> Forall is_byte base -> forall n fk,
  Forall is_byte fk ->
  Forall is_byte (foldl (store_rows bk) fk (enumerate_from n base)).
Proof.
  intros Hbk Hbase. induction Hbase as [|b base Hb Hbase IH]; intros n fk Hfk; [done|].
  cbn [enumerate_from foldl]. apply IH. unfold store_rows.
  by apply store_row_bytes.
Qed.

Lemma final_key_of_bytes base k out :
  Forall is_byte base -> final_key_of base k = Ok out -> Forall is_byte out.
Proof.
  intros Hbase. unfold final_key_of, to_bytes8.
  destruct (in_int64 k); [|done]. cbn [mbind exc_bind]. intros <-%Ok_inj.
  apply store_rows_bytes; [|done|].
  - apply Forall_forall. intros x Hx.
    apply list_elem_of_fmap in Hx as (j & -> & _). apply le_byte_range.
  - apply Forall_replicate. unfold is_byte. lia.
Qed.

Lemma xor_stream_bytes fk l : Forall is_byte fk -> forall d,
  Forall is_byte d -> Forall is_byte (foldl (xor_at fk) d l).
Proof.
  intros Hfk. induction l as [|i l IH]; intros d Hd; [done|].
  cbn [foldl]. apply IH. unfold xor_at.
  destruct (d !! i) as [x|] eqn:Hx; [|done].
  destruct (fk !! _) as [kb|] eqn:Hkb; [|done].
  apply Forall_insert; [done|]. apply lxor_byte.
  - exact (Forall_lookup_1 _ _ _ _ Hd Hx).
  - exact (Forall_lookup_1 _ _ _ _ Hfk Hkb).
Qed.

(** X14: every value stored into the key and into the decoded buffer is
    a byte: for a buffer of bytes, the result of [decode] is a buffer of
    bytes of the same length, and the derived key is 88 bytes. *)
Theorem decode_keeps_bytes (raw : bytes) (k : Z) (out : bytes) :
  Forall is_byte raw ->
  decode raw k = Ok out ->
  Forall is_byte out /\ length out = length raw
  /\ (forall fk, _create_final_key k = Ok fk -> Forall is_byte fk /\ length fk = 88).
Proof.
  intros Hraw Hdec.
  assert (Hkey : forall fk, _create_final_key k = Ok fk ->
            Forall is_byte fk /\ length fk = 88).
  { intros fk. unfold _create_final_key. rewrite fromhex_base_key.
    cbn [mbind exc_bind]. intros Hfk. split.
    - eapply final_key_of_bytes; [|exact Hfk].
      repeat constructor; unfold is_byte; lia.
    - unfold final_key_of, to_bytes8 in Hfk. destruct (in_int64 k); [|done].
      cbn [mbind exc_bind] in Hfk. apply Ok_inj in Hfk as <-.
      by rewrite store_rows_length, length_replicate. }
  split; [|split; [|done]].
  - revert Hdec. unfold decode. destruct (k =? 0)%Z; [by intros <-%Ok_inj|].
    destruct (256 <? length raw); [|by intros <-%Ok_inj].
    unfold _decrypt. destruct (_create_final_key k) as [fk|] eqn:Hfk; [|done].
    cbn [mbind exc_bind]. intros <-%Ok_inj.
    apply xor_stream_bytes; [|done]. by apply Hkey.
  - revert Hdec. unfold decode. destruct (k =? 0)%Z; [by intros <-%Ok_inj|].
    destruct (256 <? length raw); [|by intros <-%Ok_inj].
    unfold _decrypt. destruct (_create_final_key k) as [fk|]; [|done].
    cbn [mbind exc_bind]. intros <-%Ok_inj. apply xor_stream_length.
Qed.

(** * What an extracted record holds *)

Lemma bind_Ok {A B} (m : exc A) (f : A -> exc B) b :
  (m ≫= f) = Ok b -> exists a, m = Ok a /\ f a = Ok b.
Proof. destruct m as [a|e]; [|done]. intros H. by exists a. Qed.

Lemma mapE_Ok {A B} (f : A -> exc B) l ys :
  mapE f l = Ok ys -> Forall2 (fun x y => f x = Ok y) l ys.
Proof.
  revert ys; induction l as [|x l IH]; intros ys; cbn [mapE].
  - intros <-%Ok_inj. constructor.
  - intros (y & Hy & H)%bind_Ok. apply bind_Ok in H as (ys' & Hys & <-%Ok_inj).
    constructor; [done|]. by apply IH.
Qed.

Lemma present_Forall {A B} (P : B -> Prop) (f : A -> exc (option B)) l found :
  Forall2 (fun x y => f x = Ok y) l found ->
  (forall x b, f x = Ok (Some b) -> P b) ->
  Forall P (present found).
Proof.
  intros H HP. unfold present. induction H as [|x [b|] l found Hx _ IH]; cbn.
  - constructor.
  - constructor; [by eapply HP|done].
  - done.
Qed.

Lemma extractText_reader ty o d :
  lyrics_or_preview ty = false ->
  extractText ty (Reader o) = Ok (Some d) ->
  exists name text,
    dict_get d (lit "jpName") = Some name
    /\ dict_get d (lit "jpText") = Some text
    /\ truthy text = true.
Proof.
  intros Hty. assert (Hbody :
    match serialized_type o with
    | None => Raise AttributeError
    | Some false => Ok None
    | Some true =>
        tree ← read_typetree o;
        name ← getitem (VDict tree) (lit "Name");
        text ← getitem (VDict tree) (lit "Text");
        next ← getitem (VDict tree) (lit "NextBlock");
        let o := [(lit "jpName", name); (lit "jpText", text); (lit "nextBlock", next)] in
        o ← match dict_get tree (lit "ChoiceDataList") with
            | Some cdl =>
                if truthy cdl then
                  cs ← iter cdl;
                  choices ← mapE (fun c => t ← getitem c (lit "Text");
                                           Ok (VDict [(lit "jpText", t)])) cs;
                  Ok (o ++ [(lit "choices", VList choices)])
                else Ok o
            | None => Ok o
            end;
        Ok (if truthy text then Some o else None)
    end = extractText ty (Reader o)) by (destruct ty; done).
  rewrite <- Hbody. clear Hbody.
  destruct (serialized_type o) as [[|]|]; try done.
  intros (tree & _ & H)%bind_Ok.
  apply bind_Ok in H as (name & _ & H).
  apply bind_Ok in H as (text & _ & H).
  apply bind_Ok in H as (next & _ & H).
  apply bind_Ok in H as (o' & Ho' & H).
  destruct (truthy text) eqn:Ht; [|done]. apply Ok_inj in H. injection H as <-.
  exists name, text.
  assert (exists tl, o' = [(lit "jpName", name); (lit "jpText", text);
                           (lit "nextBlock", next)] ++ tl) as [tl ->].
  { destruct (dict_get tree (lit "ChoiceDataList")) as [cdl|].
    - destruct (truthy cdl).
      + apply bind_Ok in Ho' as (cs & _ & Ho').
        apply bind_Ok in Ho' as (choices & _ & <-%Ok_inj). by eexists.
      + apply Ok_inj in Ho' as <-. exists []. by rewrite app_nil_r.
    - apply Ok_inj in Ho' as <-. exists []. by rewrite app_nil_r. }
  split; [reflexivity|]. split; [reflexivity|done].
Qed.

Lemma shown_choice c b :
  (shown ← get c (lit "jpText") VNone;
   if truthy shown then Some <$> getitem c (lit "jpText") else Ok None) = Ok (Some b) ->
  truthy b = true.
Proof.
  intros (shown & Hs & H)%bind_Ok. destruct (truthy shown) eqn:Ht; [|done].
  destruct c as [| | | | |kv]; try done. cbn [get getitem] in *.
  apply Ok_inj in Hs as <-.
  destruct (dict_get kv (lit "jpText")) as [v|]; [|done].
  cbn in H. by injection H as <-.
Qed.

Lemma h_block_has_text d b name text :
  dict_get d (lit "jpName") = Some name ->
  dict_get d (lit "jpText") = Some text ->
  truthy text = true ->
  h_block d = Ok b -> has_text b.
Proof.
  intros Hn Ht Htr. unfold h_block. rewrite Hn, Ht. cbn [default from_option].
  destruct (dict_get d (lit "choices")) as [cs|].
  - intros (l & _ & H)%bind_Ok. apply bind_Ok in H as (found & Hf & <-%Ok_inj).
    apply mapE_Ok in Hf.
    case_bool_decide as Hlen; eexists _, name, text;
      (split; [reflexivity|]); (split; [reflexivity|]);
      (split; [reflexivity|]); (split; [done|]).
    + intros cs' Hcs. done.
    + intros cs' Hcs. injection Hcs as <-. eexists. split; [done|]. split.
      * intros Hnil. by rewrite Hnil in Hlen.
      * eapply present_Forall; [exact Hf|]. intros x c. apply shown_choice.
  - intros <-%Ok_inj. eexists _, name, text.
    split; [reflexivity|]. split; [reflexivity|]. split; [reflexivity|].
    split; [done|]. intros cs' Hcs. done.
Qed.

(** X15: every block extracted for story or home is a dict with a name
    and a non-empty text; when it has a [choice_data_list], that list is
    not empty and none of its choices is empty. *)
Theorem story_blocks_have_text ty assets tree blocks :
  lyrics_or_preview ty = false ->
  text_blocks ty assets tree = Ok blocks ->
  Forall has_text blocks.
Proof.
  intros Hty Hblocks.
  assert (Hclip : forall clip b, clip_block ty assets clip = Ok (Some b) -> has_text b).
  { intros clip b. unfold clip_block.
    intros (pathId & _ & H)%bind_Ok. apply bind_Ok in H as (found & _ & H).
    destruct found as [obj|]; [|done].
    apply bind_Ok in H as (textData & Htd & H).
    destruct textData as [[|e d]|]; try done.
    destruct (extractText_reader _ _ _ Hty Htd) as (name & text & Hn & Ht & Htr).
    destruct (h_block (e :: d)) as [b'|] eqn:Hb; [|done].
    apply Ok_inj in H. injection H as <-.
    by eapply h_block_has_text. }
  assert (Hblock : forall block bs, block_clips ty assets block = Ok bs ->
                     Forall has_text bs).
  { intros block bs. unfold block_clips.
    intros (track & _ & H)%bind_Ok. apply bind_Ok in H as (clipList & _ & H).
    apply bind_Ok in H as (clips & _ & H). apply bind_Ok in H as (found & Hf & <-%Ok_inj).
    apply mapE_Ok in Hf. eapply present_Forall; [exact Hf|]. exact Hclip. }
  assert (Hbody : (blockList ← getitem (VDict tree) (lit "BlockList");
                   blocks ← iter blockList;
                   found ← mapE (block_clips ty assets) blocks;
                   Ok (concat found)) = text_blocks ty assets tree)
    by (destruct ty; done).
  rewrite <- Hbody in Hblocks. clear Hbody.
  apply bind_Ok in Hblocks as (blockList & _ & H).
  apply bind_Ok in H as (bl & _ & H). apply bind_Ok in H as (found & Hf & <-%Ok_inj).
  apply mapE_Ok in Hf. apply Forall_concat.
  induction Hf as [|x y l found Hx _ IH]; constructor; [by eapply Hblock|done].
Qed.

Lemma find_root_Some objs root :
  find_root objs = Some root ->
  root ∈ objs
  /\ serialized_type root = Some true
  /\ exists tree, read_typetree root = Ok tree
       /\ (has_key tree (lit "BlockList") || has_key tree (lit "TextTrack")) = true.
Proof.
  unfold find_root. intros H. apply head_Some_elem_of in H.
  apply list_elem_of_filter in H as [Hroot Hin]. split; [done|].
  unfold is_root in Hroot.
  destruct (serialized_type root) as [[|]|]; try done. split; [done|].
  destruct (read_typetree root) as [tree|]; [|done]. by exists tree.
Qed.

Lemma getitem_has_key tree k v :
  getitem (VDict tree) k = Ok v -> has_key tree k = true.
Proof.
  cbn [getitem]. destruct (dict_get tree k) eqn:Hk; [|done]. intros _.
  unfold has_key. rewrite Hk. by apply bool_decide_eq_true.
Qed.

Section Record.

Variable UnityPy_load : bytes -> exc Environment.

(** X16: a record is returned only with at least one text block, never
    for lyrics, with the [no_wrap] flag of its type and the file name of
    [output_filename]; it comes from a readable bundle whose decoded bytes
    the parser accepted, and from an object of that bundle whose typetree
    has [BlockList] or [TextTrack], and for preview also [DataArray] (for
    story and home [BlockList]); its title is the tree's [Title] or the
    empty string. *)
Theorem extractAsset_record files p key sid args exp f :
  extractAsset UnityPy_load files p key sid args = Ok (Some (exp, f)) ->
  text_block_list exp <> []
  /\ no_wrap exp = TYPE_CONFIG.no_wrap (Args.type args)
  /\ Args.type args <> lyrics
  /\ output_filename (Args.type args) sid exp = Ok f
  /\ exists file_data data env root tree,
       read_bytes files p = Ok file_data
       /\ decode file_data key = Ok data
       /\ UnityPy_load data = Ok env
       /\ root ∈ objects env
       /\ serialized_type root = Some true
       /\ read_typetree root = Ok tree
       /\ (has_key tree (lit "BlockList") || has_key tree (lit "TextTrack")) = true
       /\ has_key tree (if bool_decide (Args.type args = preview)
                        then lit "DataArray" else lit "BlockList") = true
       /\ title exp = default (VStr []) (dict_get tree (lit "Title")).
Proof.
  intros Hex. pose proof (extractAsset_filename _ _ _ _ _ _ _ _ Hex) as [Hf Hne].
  revert Hex. unfold extractAsset, load.
  destruct (negb _); [done|].
  intros (asset & Hload & H)%bind_Ok.
  apply bind_Ok in Hload as (file_data & Hread & Hload).
  apply bind_Ok in Hload as (data & Hdec & Hload).
  apply bind_Ok in Hload as (env & Henv & Hload).
  apply Ok_inj in Hload as <-. cbn [rootAsset assets] in H.
  destruct (find_root (objects env)) as [root|] eqn:Hroot; [|done].
  destruct (find_root_Some _ _ Hroot) as (Hin & Hst & tree & Htree & Hkeys).
  rewrite Hst, Htree in H. cbn [mbind exc_bind] in H.
  destruct (text_blocks _ _ _) as [blocks|] eqn:Hblocks; [|done].
  cbn [mbind exc_bind] in H. case_bool_decide as Hnil; [done|].
  apply bind_Ok in H as (f' & _ & H). apply Ok_inj in H. injection H as <- <-.
  split; [done|]. split; [done|].
  assert (Args.type args <> lyrics /\
          has_key tree (if bool_decide (Args.type args = preview)
                        then lit "DataArray" else lit "BlockList") = true) as [Hty Hkey].
  { revert Hblocks. unfold text_blocks. destruct (Args.type args).
    - intros (v & Hv & _)%bind_Ok. split; [done|]. by eapply getitem_has_key.
    - intros (v & Hv & _)%bind_Ok. split; [done|]. by eapply getitem_has_key.
    - intros <-%Ok_inj. done.
    - intros (v & Hv & _)%bind_Ok. split; [done|]. by eapply getitem_has_key. }
  split; [done|]. split; [done|].
  exists file_data, data, env, root, tree. by repeat split.
Qed.

End Record.

(** * The index-database decryption *)

(** The two ways the loop can go: a first status other than SQLITE_OK
    within the fuel, or SQLITE_OK throughout. *)
Lemma backup_loop_status (step : nat -> Z) (fuel : nat) :
  (forall n k,
     (forall j, j < n -> step (k + j) = SQLITE_OK) ->
     step (k + n) <> SQLITE_OK ->
     n < fuel ->
     backup_loop step fuel k
     = (Some (if Z.eqb (step (k + n)) SQLITE_DONE then SQLITE_OK else step (k + n)), S n))
  /\ (forall k,
        (forall j, j < fuel -> step (k + j) = SQLITE_OK) ->
        backup_loop step fuel k = (None, fuel)).
Proof.
  split.
  - induction fuel as [|fuel IH]; intros n k Hok Hend Hfuel; [lia|].
    cbn [backup_loop]. destruct n as [|n].
    + rewrite Nat.add_0_r in *.
      destruct (Z.eqb_spec (step k) SQLITE_DONE) as [_|Hnd]; [done|].
      by rewrite (proj2 (Z.eqb_neq _ _) Hend).
    + pose proof (Hok 0 ltac:(lia)) as H0. rewrite Nat.add_0_r in H0.
      rewrite H0. cbn [Z.eqb SQLITE_OK SQLITE_DONE].
      rewrite (IH n (S k)); [| |by replace (S k + n) with (k + S n) by lia|lia].
      * by replace (S k + n) with (k + S n) by lia.
      * intros j Hj. replace (S k + j) with (k + S j) by lia. apply Hok. lia.
  - induction fuel as [|fuel IH]; intros k Hok; [done|].
    cbn [backup_loop]. pose proof (Hok 0 ltac:(lia)) as H0.
    rewrite Nat.add_0_r in H0. rewrite H0. cbn [Z.eqb SQLITE_OK SQLITE_DONE].
    rewrite IH; [done|].
    intros j Hj. replace (S k + j) with (k + S j) by lia. apply Hok. lia.
Qed.

(** X17: the backup loop steps while the status is SQLITE_OK and stops at
    the first other status: it returns SQLITE_OK when that status is
    SQLITE_DONE and the status itself otherwise, after one step more than
    the number of SQLITE_OK answers; while every answer is SQLITE_OK it
    keeps stepping. *)
Theorem backup_loop_first_status (step : nat -> Z) (fuel : nat) :
  (forall n k,
     (forall j, j < n -> step (k + j) = SQLITE_OK) ->
     step (k + n) <> SQLITE_OK ->
     n < fuel ->
     backup_loop step fuel k
     = (Some (if Z.eqb (step (k + n)) SQLITE_DONE then SQLITE_OK else step (k + n)), S n))
  /\ (forall k,
        (forall j, j < fuel -> step (k + j) = SQLITE_OK) ->
        backup_loop step fuel k = (None, fuel)).
Proof. exact (backup_loop_status step fuel). Qed.

(** Every way the loop can end within [fuel] steps. *)
Lemma backup_loop_inv step fuel : forall k r m,
  backup_loop step fuel k = (r, m) ->
  (r = None /\ m = fuel /\ forall j, j < fuel -> step (k + j) = SQLITE_OK)
  \/ (exists n, m = S n /\ n < fuel
        /\ (forall j, j < n -> step (k + j) = SQLITE_OK)
        /\ step (k + n) <> SQLITE_OK
        /\ r = Some (if Z.eqb (step (k + n)) SQLITE_DONE then SQLITE_OK else step (k + n))).
Proof.
  induction fuel as [|fuel IH]; intros k r m; cbn [backup_loop].
  - intros [= <- <-]. left. split; [done|]. split; [done|]. intros j Hj. lia.
  - destruct (Z.eqb_spec (step k) SQLITE_DONE) as [Hd|Hnd].
    + intros [= <- <-]. right. exists 0. rewrite Nat.add_0_r, Hd.
      split; [done|]. split; [lia|]. split; [intros j Hj; lia|]. by split.
    + destruct (Z.eqb_spec (step k) SQLITE_OK) as [H0|Hn0].
      * destruct (backup_loop step fuel (S k)) as [r' m'] eqn:Hrec.
        intros [= <- <-]. apply IH in Hrec as [(-> & -> & Hall)|(n & -> & Hn & Hall & Hend & ->)].
        -- left. split; [done|]. split; [done|]. intros [|j] Hj.
           ++ by rewrite Nat.add_0_r.
           ++ replace (k + S j) with (S k + j) by lia. apply Hall. lia.
        -- right. exists (S n). replace (k + S n) with (S k + n) by lia.
           split; [done|]. split; [lia|]. split; [|by split].
           intros [|j] Hj.
           ++ by rewrite Nat.add_0_r.
           ++ replace (k + S j) with (S k + j) by lia. apply Hall. lia.
      * intros [= <- <-]. right. exists 0. rewrite Nat.add_0_r.
        rewrite (proj2 (Z.eqb_neq _ _) Hnd).
        split; [done|]. split; [lia|]. split; [intros j Hj; lia|]. by split.
Qed.

(** X18: [decrypt_meta_file] returns [True] exactly when the library
    file exists and loads, the source opens, the key is accepted, the
    destination opens, the backup starts and its first status other than
    SQLITE_OK is SQLITE_DONE; the calls it has made are then the opening
    calls, the steps, finish, and the two closes, destination first. *)
Theorem decrypt_meta_file_true_iff dll_exists cdll fuel src dst calls :
  decrypt_meta_file dll_exists cdll fuel src dst = (Some true, calls)
  <-> dll_exists = true
      /\ exists api n,
           cdll = Some api
           /\ open_ok api src = true
           /\ sqlite3_key api = SQLITE_OK
           /\ open_ok api dst = true
           /\ sqlite3_backup_init api = true
           /\ n < fuel
           /\ (forall j, j < n -> sqlite3_backup_step api j = SQLITE_OK)
           /\ sqlite3_backup_step api n = SQLITE_DONE
           /\ calls = backup_calls (S n)
                      ++ [CallBackupFinish; CallClose DstDb; CallClose SrcDb].
Proof.
  unfold decrypt_meta_file, backup_to_file. split.
  - destruct dll_exists; [|done]. cbn [negb]. destruct cdll as [api|]; [|done].
    destruct (open_ok api src) eqn:Hsrc; [|done]. cbn [negb].
    destruct (Z.eqb_spec (sqlite3_key api) SQLITE_OK) as [Hkey|]; [|done]. cbn [negb].
    destruct (open_ok api dst) eqn:Hdst; [|done]. cbn [negb].
    destruct (sqlite3_backup_init api) eqn:Hinit; [|done]. cbn [negb].
    destruct (backup_loop _ fuel 0) as [[rc|] m] eqn:Hloop; [|done].
    intros [= Hrc <-].
    apply backup_loop_inv in Hloop as [[? _]|(n & -> & Hn & Hall & Hend & Hr)].
    1: done.
    cbn [Nat.add] in *. injection Hr as ->.
    split; [done|]. exists api, n. repeat split; try done.
    + destruct (Z.eqb_spec (sqlite3_backup_step api n) SQLITE_DONE); [done|].
      by apply Z.eqb_eq in Hrc.
    + unfold backup_calls. by rewrite <- !app_assoc.
  - intros (-> & api & n & -> & -> & Hkey & -> & -> & Hn & Hall & Hdone & ->).
    cbn [negb]. rewrite Hkey. cbn [Z.eqb SQLITE_OK negb].
    destruct (backup_loop_status (sqlite3_backup_step api) fuel) as [Hfirst _].
    rewrite (Hfirst n 0); [|done|by cbn; rewrite Hdone|done].
    cbn [Nat.add]. rewrite Hdone. cbn. unfold backup_calls. by rewrite <- !app_assoc.
Qed.

Ltac count_case :=
  cbv zeta; split; [vm_compute; lia|]; split; [vm_compute; lia|];
  split; [|by (intros [|] || (intros; reflexivity))];
  let api' := fresh "api" in let Heq := fresh "Heq" in
  intros api' Heq; try (injection Heq as <-); try discriminate;
  repeat match goal with
  | H : ?b = _ |- context [if ?b then _ else _] => rewrite H
  end;
  repeat match goal with
  | |- context [if ?b then _ else _] => destruct b
  end;
  repeat split; intros; vm_compute in *; (done || lia).

(** X19: whenever [decrypt_meta_file] returns, each database is opened
    at most once and closed exactly when its open succeeded, the backup is
    finished exactly when it was started, a rejected key means the
    destination is never opened, and the close of the source is the last
    call; without the library no call is made. *)
Theorem decrypt_meta_file_handles dll_exists cdll fuel src dst result calls :
  decrypt_meta_file dll_exists cdll fuel src dst = (Some result, calls) ->
  let closes h := length (filter (fun c => c = CallClose h) calls) in
  let opens h := length (filter (fun c => c = CallOpen h) calls) in
  let finishes := length (filter (fun c => c = CallBackupFinish) calls) in
  let inits := length (filter (fun c => c = CallBackupInit) calls) in
  opens SrcDb <= 1 /\ opens DstDb <= 1
  /\ (forall api, cdll = Some api ->
        closes SrcDb = (if open_ok api src then opens SrcDb else 0)
        /\ closes DstDb = (if open_ok api dst then opens DstDb else 0)
        /\ finishes = (if sqlite3_backup_init api then inits else 0)
        /\ (sqlite3_key api <> SQLITE_OK -> opens DstDb = 0)
        /\ (opens SrcDb = 1 -> open_ok api src = true ->
              last calls = Some (CallClose SrcDb)))
  /\ (cdll = None \/ dll_exists = false -> calls = []).
Proof.
  assert (Hcount : forall x n (tail : list native_call),
            x <> CallBackupStep ->
            length (filter (fun c => c = x) (backup_calls n ++ tail))
            = length (filter (fun c => c = x) (backup_calls 0 ++ tail))).
  { intros x n tail Hx. unfold backup_calls.
    rewrite !filter_app, !length_app.
    assert (filter (fun c => c = x) (replicate n CallBackupStep) = []) as ->; [|done].
    induction n as [|n IH]; [done|]. cbn [replicate]. rewrite filter_cons.
    by rewrite decide_False. }
  unfold decrypt_meta_file, backup_to_file.
  destruct dll_exists; cbn [negb]; [|intros [= <- <-]; count_case].
  destruct cdll as [api|]; [|intros [= <- <-]; count_case].
  destruct (open_ok api src) eqn:Hsrc; cbn [negb].
  2:{ intros [= <- <-]. count_case. }
  destruct (Z.eqb_spec (sqlite3_key api) SQLITE_OK) as [Hkey|Hkey]; cbn [negb].
  2:{ intros [= <- <-]. count_case. }
  destruct (open_ok api dst) eqn:Hdst; cbn [negb].
  2:{ intros [= <- <-]. count_case. }
  destruct (sqlite3_backup_init api) eqn:Hinit; cbn [negb].
  2:{ intros [= <- <-]. count_case. }
  destruct (backup_loop _ fuel 0) as [[rc|] n]; [|done].
  intros [= <- <-]. cbv zeta.
  repeat match goal with
  | |- context [@filter _ _ _ _ _ ?l] =>
      progress change l
        with (backup_calls n ++ [CallBackupFinish; CallClose DstDb; CallClose SrcDb])
  | |- context [last ?l] =>
      progress change l
        with ((backup_calls n ++ [CallBackupFinish; CallClose DstDb]) ++ [CallClose SrcDb])
  end.
  rewrite last_snoc. rewrite <- !(app_assoc (backup_calls n)). rewrite !(Hcount (CallOpen SrcDb) n), !(Hcount (CallOpen DstDb) n),
    !(Hcount (CallClose SrcDb) n), !(Hcount (CallClose DstDb) n),
    !(Hcount CallBackupFinish n), !(Hcount CallBackupInit n) by done.
  split; [vm_compute; lia|]. split; [vm_compute; lia|]. split; [|by intros [|]].
  intros api' [= <-]. rewrite Hsrc, Hdst, Hinit.
  repeat split; intros; vm_compute; done.
Qed.

(** * The properties above on explicit inputs *)

Lemma parseFromPath_filename_stem_witness :
  let s := StoryId.mk home (Some (lit "00001")) (Some (lit "01"))
             (Some (lit "0002")) (Some (lit "003")) in
  StoryId.valid s = true
  /\ TYPE_CONFIG.filename home s [] = lit "hometimeline_00001_01_0002003" ++ lit ".json"
  /\ StoryId.parseFromPath home
       (lit "home/data/00001/01/" ++ lit "hometimeline_00001_01_0002003") = s.
Proof.
  split; [reflexivity|]. split; [reflexivity|].
  exact (parseFromPath_filename_stem (lit "home/data/00001/01/")
           (lit "hometimeline_00001_01_0002003") []
           (StoryId.mk home (Some (lit "00001")) (Some (lit "01"))
              (Some (lit "0002")) (Some (lit "003")))
           eq_refl eq_refl eq_refl eq_refl).
Defined.

Lemma parseFromPath_query_pattern_witness :
  query_pattern (StoryId.init lyrics None None (Some (lit "1001")) None)
  = lit "live/musicscores/m1001/m1001_lyrics"
  /\ StoryId.parseFromPath lyrics
       (query_pattern (StoryId.init lyrics None None (Some (lit "1001")) None))
     = StoryId.init lyrics None None (Some (lit "1001")) None.
Proof.
  split; [reflexivity|].
  exact (parseFromPath_query_pattern lyrics (lit "1001") eq_refl eq_refl).
Defined.

Lemma parse_args_story_id_witness :
  let a := {| Cli.type := story; Cli.set := None; Cli.group := None;
              Cli.id := None; Cli.idx := None;
              Cli.story := Some (lit "010002003") |} in
  Cli.storyId (Cli.parse_args a)
  = StoryId.mk story None (Some (lit "01")) (Some (lit "0002")) (Some (lit "003")).
Proof.
  exact (proj1 (parse_args_story_id
                  {| Cli.type := story; Cli.set := None; Cli.group := None;
                     Cli.id := None; Cli.idx := None;
                     Cli.story := Some (lit "010002003") |}
                  48%N (lit "10002003") eq_refl)
           eq_refl eq_refl eq_refl eq_refl).
Defined.

Lemma patched_bundle_skipped_witness :
  exportAsset Fixture.root (Fixture.parse_as StoryFixture.env) Fixture.dump
    Fixture.present_hash StoryFixture.hint 0 StoryFixture.args StoryFixture.patched_disk
  = (Ok None,
     {| fs := fs StoryFixture.patched_disk;
        log := [EvOpen (createPath Fixture.root Fixture.present_hash)] |}).
Proof.
  exact (patched_bundle_skipped Fixture.root (Fixture.parse_as StoryFixture.env)
           Fixture.dump Fixture.present_hash StoryFixture.hint 0 StoryFixture.args
           StoryFixture.patched_disk [1; 2; 3]%Z eq_refl eq_refl).
Defined.

Lemma story_home_rerun_skipped_witness :
  let task := exportAsset Fixture.root (Fixture.parse_as StoryFixture.env) Fixture.dump
                Fixture.present_hash StoryFixture.hint 0 StoryFixture.args in
  (task Fixture.disk).1 = Ok (Some (lit "storytimeline_010002003.json"))
  /\ task (task Fixture.disk).2 = (Ok None, (task Fixture.disk).2).
Proof.
  split; [by vm_compute|].
  apply (story_home_rerun_skipped Fixture.root (Fixture.parse_as StoryFixture.env)
           Fixture.dump Fixture.present_hash StoryFixture.hint 0
           Fixture.present_hash 0 StoryFixture.args Fixture.disk
           (lit "storytimeline_010002003.json")); [reflexivity | reflexivity |].
  by vm_compute.
Defined.


Lemma decode_keeps_bytes_witness :
  exists out, decode (replicate 300 9%Z) (-7) = Ok out
    /\ Forall is_byte out /\ length out = 300.
Proof.
  destruct (decode_in_range (replicate 300 9%Z) (-7) (or_introl eq_refl)) as [out Hout].
  exists out. split; [exact Hout|].
  assert (Hraw : Forall is_byte (replicate 300 9%Z)).
  { apply Forall_replicate. unfold is_byte. lia. }
  destruct (decode_keeps_bytes (replicate 300 9%Z) (-7) out Hraw Hout) as (Hb & Hl & _).
  split; [exact Hb|]. rewrite Hl. apply length_replicate.
Defined.

Lemma story_blocks_have_text_witness :
  exists blocks,
    text_blocks story (files StoryFixture.env) StoryFixture.tree = Ok blocks
    /\ length blocks = 1
    /\ Forall has_text blocks.
Proof.
  eexists. split; [by vm_compute|]. split; [reflexivity|].
  apply (story_blocks_have_text story (files StoryFixture.env) StoryFixture.tree);
    [reflexivity | by vm_compute].
Defined.

Lemma extractAsset_record_witness :
  let exp := {| title := VStr (lit "Event"); no_wrap := false;
                text_block_list := [VDict [(lit "name", VStr (lit "A"));
                                           (lit "text", VStr (lit "Hello"))]] |} in
  text_block_list exp <> [] /\ Args.type Fixture.preview_args <> lyrics.
Proof.
  assert (H : extractAsset (Fixture.parse_as Fixture.preview_env) (fs Fixture.disk)
                (createPath Fixture.root Fixture.present_hash) 0
                (StoryId.parseFromPath preview Fixture.preview_hint) Fixture.preview_args
              = Ok (Some ({| title := VStr (lit "Event"); no_wrap := false;
                             text_block_list := [VDict [(lit "name", VStr (lit "A"));
                                                        (lit "text", VStr (lit "Hello"))]] |},
                          lit "None (Event).json"))) by (by vm_compute).
  destruct (extractAsset_record _ _ _ _ _ _ _ _ H) as (H1 & _ & H3 & _).
  split; [exact H1 | exact H3].
Defined.

Lemma decrypt_meta_file_handles_witness :
  let calls := (decrypt_meta_file true (Some StoryFixture.api) 10
                  (lit "meta") (lit "meta_decrypted.sqlite")).2 in
  length (filter (fun c => c = CallClose SrcDb) calls) = 1
  /\ last calls = Some (CallClose SrcDb).
Proof.
  cbv zeta.
  assert (H : decrypt_meta_file true (Some StoryFixture.api) 10
                (lit "meta") (lit "meta_decrypted.sqlite")
              = (Some true, (decrypt_meta_file true (Some StoryFixture.api) 10
                               (lit "meta") (lit "meta_decrypted.sqlite")).2))
    by (by vm_compute).
  destruct (decrypt_meta_file_handles _ _ _ _ _ _ _ H) as (_ & _ & Hapi & _).
  destruct (Hapi StoryFixture.api eq_refl) as (Hc & _ & _ & _ & Hlast).
  split.
  - etransitivity; [exact Hc | by vm_compute].
  - apply Hlast; by vm_compute.
Defined.
